(** * The extractive transcript summarizer of yt-processor

    A shallow embedding of [dist/.opencode/agent/transcript-summarizer.js]
    and the properties of its three summary modes.

    Conventions of the embedding.

    - A JavaScript string is a [string]: a sequence of code units below 256
      (the Latin-1 range).  [length] is the [.length] of the source.
    - A JavaScript argument that may be missing or of another type is a
      [jsval]; numbers that are array lengths, indices and scores are [Z].
    - The decimal literals of the source ([0.2], [0.25], [0.8], ...) are
      exact rationals in [Q].  The source computes with IEEE doubles; for
      array lengths (below [2^32]) the doubles [i / n], [n * 0.3], ... fall on
      the same side of every threshold and of every integer as the exact
      rationals, so comparisons, [Math.floor] and [Math.ceil] agree.  Module
      [Doubles] runs the double arithmetic next to the rational one.
    - [execute] returns a [completion]: the record that the source hands to
      [JSON.stringify], or the message of the [Error] it throws. *)

From Stdlib Require Import ZArith QArith Qround List Bool Lia.
From Stdlib Require Import Ascii String DecimalString.
From Stdlib Require Import Sorted Permutation.
From Stdlib Require PrimFloat Uint63.
Import ListNotations.

Open Scope string_scope.
Open Scope Z_scope.

(** ** JavaScript strings *)

Module JsString.

Definition code (c : ascii) : N := N_of_ascii c.

(** [String.prototype.toLowerCase] on one Latin-1 code unit: [A-Z],
    [À-Ö] and [Ø-Þ] move 32 up, everything else stays. *)
Definition lowerChar (c : ascii) : ascii :=
  let n := code c in
  if ((65 <=? n) && (n <=? 90) || (192 <=? n) && (n <=? 214)
      || (216 <=? n) && (n <=? 222))%N
  then ascii_of_N (n + 32) else c.

Fixpoint toLowerCase (s : string) : string :=
  match s with
  | EmptyString => EmptyString
  | String c r => String (lowerChar c) (toLowerCase r)
  end.

(** White space and line terminators of ECMAScript below 256: TAB, LF, VT,
    FF, CR, SP and NBSP. *)
Definition isWhite (c : ascii) : bool :=
  let n := code c in
  ((9 <=? n) && (n <=? 13) || (n =? 32) || (n =? 160))%N.

Fixpoint trimStart (s : string) : string :=
  match s with
  | EmptyString => EmptyString
  | String c r => if isWhite c then trimStart r else s
  end.

Fixpoint trimEnd (s : string) : string :=
  match s with
  | EmptyString => EmptyString
  | String c r =>
      match trimEnd r with
      | EmptyString => if isWhite c then EmptyString else String c EmptyString
      | r' => String c r'
      end
  end.

Definition trim (s : string) : string := trimEnd (trimStart s).

(** [s.startsWith(p)] *)
Fixpoint startsWith (s p : string) : bool :=
  match p, s with
  | EmptyString, _ => true
  | String _ _, EmptyString => false
  | String a p', String b s' => Ascii.eqb a b && startsWith s' p'
  end.

(** [s.includes(p)] *)
Fixpoint includes (s p : string) : bool :=
  startsWith s p ||
  match s with
  | EmptyString => false
  | String _ r => includes r p
  end.

(** [s.endsWith(p)] *)
Fixpoint endsWith (s p : string) : bool :=
  String.eqb s p ||
  match s with
  | EmptyString => false
  | String _ r => endsWith r p
  end.

(** [s.split(c)] for a one-character separator: every occurrence of the
    separator cuts, empty pieces are kept, the empty string gives [[""]]. *)
Fixpoint splitAcc (sep : ascii) (s cur : string) : list string :=
  match s with
  | EmptyString => [cur]
  | String c r =>
      if Ascii.eqb c sep then cur :: splitAcc sep r EmptyString
      else splitAcc sep r (cur ++ String c EmptyString)
  end.

Definition split (sep : ascii) (s : string) : list string :=
  splitAcc sep s EmptyString.

(** [s.split(/[...]+/)] for a character class: a maximal run of separator
    characters cuts once. [inrun] records that the previous character was
    a separator. *)
Fixpoint splitRunsAcc (sep : ascii -> bool) (s cur : string) (inrun : bool)
  : list string :=
  match s with
  | EmptyString => [cur]
  | String c r =>
      if sep c then
        if inrun then splitRunsAcc sep r EmptyString true
        else cur :: splitRunsAcc sep r EmptyString true
      else splitRunsAcc sep r (cur ++ String c EmptyString) false
  end.

Definition splitRuns (sep : ascii -> bool) (s : string) : list string :=
  splitRunsAcc sep s EmptyString false.

(** [arr.join(sep)] *)
Fixpoint join (sep : string) (l : list string) : string :=
  match l with
  | [] => EmptyString
  | [x] => x
  | x :: r => x ++ sep ++ join sep r
  end.

(** Decimal rendering of a non-negative number in a template literal. *)
Definition ofZ (z : Z) : string := NilZero.string_of_int (Z.to_int z).

Definition nl : string := String (ascii_of_nat 10) EmptyString.

Definition len (s : string) : Z := Z.of_nat (String.length s).

End JsString.

(** ** JavaScript arrays *)

Module JsArray.

Section Ops.
Context {A B : Type}.

Definition len (l : list A) : Z := Z.of_nat (List.length l).

(** Relative index of [slice]: negative counts from the end, and the
    result is clamped to [0 .. length]. *)
Definition rel (n k : Z) : Z :=
  if k <? 0 then Z.max (n + k) 0 else Z.min k n.

(** [arr.slice(a, b)] *)
Definition slice (a b : Z) (l : list A) : list A :=
  let n := len l in
  let from := rel n a in
  let to := rel n b in
  firstn (Z.to_nat (to - from)) (skipn (Z.to_nat from) l).

(** [arr.slice(a)] *)
Definition sliceFrom (a : Z) (l : list A) : list A :=
  skipn (Z.to_nat (rel (len l) a)) l.

(** [arr[i]]; [None] is [undefined]. *)
Definition get (l : list A) (i : Z) : option A :=
  if i <? 0 then None else nth_error l (Z.to_nat i).

(** [arr.map((x, index) => f x index)] *)
Fixpoint mapiFrom (f : A -> Z -> B) (i : Z) (l : list A) : list B :=
  match l with
  | [] => []
  | x :: r => f x i :: mapiFrom f (i + 1) r
  end.

(** [arr.filter((x, pos) => p x pos)] *)
Fixpoint filteriFrom (p : A -> Z -> bool) (i : Z) (l : list A) : list A :=
  match l with
  | [] => []
  | x :: r =>
      if p x i then x :: filteriFrom p (i + 1) r
      else filteriFrom p (i + 1) r
  end.
End Ops.

Arguments len {A} l.
Arguments slice {A} a b l.
Arguments sliceFrom {A} a l.
Arguments get {A} l i.
Arguments mapiFrom {A B} f i l.
Arguments filteriFrom {A} p i l.

Definition mapi {A B : Type} (f : A -> Z -> B) (l : list A) : list B :=
  mapiFrom f 0 l.

Definition filteri {A : Type} (p : A -> Z -> bool) (l : list A) : list A :=
  filteriFrom p 0 l.

(** [arr.indexOf(x)] on numbers; [-1] when absent. *)
Fixpoint indexOfFrom (x : Z) (i : Z) (l : list Z) : Z :=
  match l with
  | [] => -1
  | y :: r => if y =? x then i else indexOfFrom x (i + 1) r
  end.

Definition indexOf (l : list Z) (x : Z) : Z := indexOfFrom x 0 l.

End JsArray.

(** ** JavaScript values *)

Inductive jsval : Type :=
| JUndefined
| JNull
| JBool (b : bool)
| JNum (z : Z)
| JStr (s : string).

(** [ToBoolean]: what [!v] negates and what [if (v)] tests. *)
Definition truthy (v : jsval) : bool :=
  match v with
  | JUndefined | JNull => false
  | JBool b => b
  | JNum z => negb (z =? 0)
  | JStr s => negb (String.eqb s "")
  end.

(** [typeof v === 'string'] *)
Definition isString (v : jsval) : bool :=
  match v with JStr _ => true | _ => false end.

(** The guard [!v || typeof v !== 'string'] of the three generators. *)
Definition invalidString (v : jsval) : bool :=
  negb (truthy v) || negb (isString v).

(** The string inside a value that has passed the guard. *)
Definition stringOf (v : jsval) : string :=
  match v with JStr s => s | _ => EmptyString end.

(** ** Decimal literals

    [ltQ a b] is the comparison [a < b] on exact rationals. *)
Definition ltQ (a b : Q) : bool := negb (Qle_bool b a).

(** [Math.floor(n * r)] and [Math.ceil(n * r)] for an integer [n] and a
    decimal literal [r]. *)
Definition floorMul (n : Z) (r : Q) : Z := Qfloor (inject_Z n * r).
Definition ceilMul (n : Z) (r : Q) : Z := Qceiling (inject_Z n * r).

(** ** The doubles of the source and the exact rationals

    The source computes the ratios and the percentages with IEEE doubles.
    The tests of this module run the double arithmetic itself and compare
    it with the rational arithmetic of the embedding. *)

Module Doubles.
Import PrimFloat.
#[local] Set Warnings "-inexact-float".

Definition toDouble (z : Z) : PrimFloat.float :=
  PrimFloat.of_uint63 (Uint63.of_Z z).

(** [Math.floor(x) === k] and [Math.ceil(x) === k] for a double [x]. *)
Definition floorIs (x : PrimFloat.float) (k : Z) : bool :=
  PrimFloat.leb (toDouble k) x && PrimFloat.ltb x (toDouble (k + 1)).

Definition ceilIs (x : PrimFloat.float) (k : Z) : bool :=
  PrimFloat.ltb (PrimFloat.sub (toDouble k) 1%float) x
  && PrimFloat.leb x (toDouble k).

Definition upto (n : nat) : list Z := map Z.of_nat (seq 0 n).

(** The four comparisons of [positionRatio], in doubles and in [Q]. *)
Definition ratioAgrees (n i : Z) : bool :=
  let d := PrimFloat.div (toDouble i) (toDouble n) in
  let r := (inject_Z i / inject_Z n)%Q in
  Bool.eqb (PrimFloat.ltb d 0.2%float) (ltQ r 0.2)
  && Bool.eqb (PrimFloat.ltb 0.8%float d) (ltQ 0.8 r)
  && Bool.eqb (PrimFloat.ltb 0.4%float d) (ltQ 0.4 r)
  && Bool.eqb (PrimFloat.ltb d 0.6%float) (ltQ r 0.6).

(** The products that are rounded, in doubles and in [Q]. *)
Definition productAgrees (n : Z) : bool :=
  let d := toDouble n in
  floorIs (PrimFloat.mul d 0.4%float) (floorMul n 0.4)
  && floorIs (PrimFloat.mul d 0.3%float) (floorMul n 0.3)
  && floorIs (PrimFloat.mul d 0.2%float) (floorMul n 0.2)
  && floorIs (PrimFloat.mul d 0.25%float) (floorMul n 0.25)
  && floorIs (PrimFloat.mul d 0.5%float) (floorMul n 0.5)
  && floorIs (PrimFloat.mul d 0.75%float) (floorMul n 0.75)
  && ceilIs (PrimFloat.mul d 0.2%float) (ceilMul n 0.2)
  && ceilIs (PrimFloat.mul d 0.3%float) (ceilMul n 0.3).

End Doubles.

(** ** The summarizer *)

Module Summarizer.
Import JsString.

(** *** Key points: [generateKeyPointsSummary] *)

(** The character class of the regular expression [/[.!?]+/]. *)
Definition isTerminal (c : ascii) : bool :=
  Ascii.eqb c "." || Ascii.eqb c "!" || Ascii.eqb c "?".

(** [transcript.split(/[.!?]+/).map(s => s.trim())
      .filter(s => s.length > 10 && s.length < 200)] *)
Definition splitSentences (transcript : string) : list string :=
  filter (fun s => (len s >? 10) && (len s <? 200))
         (map trim (splitRuns isTerminal transcript)).

Definition keyPointIndicators : list string :=
  [ (* Importance indicators *)
    "important"; "key"; "main"; "primary"; "essential"; "crucial";
    "critical"; "significant"; "fundamental"; "core"; "central"; "major";
    "vital"; "paramount";
    (* Sequence indicators *)
    "first"; "second"; "third"; "fourth"; "fifth"; "next"; "then"; "after";
    "before"; "finally"; "lastly"; "in conclusion"; "to conclude";
    "to summarize"; "in summary";
    (* Attention indicators *)
    "remember"; "note that"; "keep in mind"; "the point is";
    "here's the thing"; "what matters"; "what's important";
    "pay attention"; "focus on";
    (* Content indicators *)
    "let's talk about"; "we'll cover"; "we'll discuss"; "we'll explore";
    "the goal is"; "the objective is"; "the purpose is"; "the aim is";
    (* Action indicators *)
    "you need to"; "you should"; "make sure"; "ensure that";
    "don't forget" ].

Record scored : Type := mkScored
  { sentence : string; score : Z; index : Z }.

(** The callback of [sentences.map((sentence, index) => ...)];
    [total] is [sentences.length]. *)
Definition scoreSentence (total : Z) (sentence : string) (index : Z)
  : scored :=
  let lowerSentence := toLowerCase sentence in
  let score := 0 in
  let keywordMatches :=
    JsArray.len
      (filter (fun indicator => includes lowerSentence indicator)
              keyPointIndicators) in
  let score := score + keywordMatches * 3 in
  let positionRatio := (inject_Z index / inject_Z total)%Q in
  let score :=
    if ltQ positionRatio 0.2 then score + 2
    else if ltQ 0.8 positionRatio then score + 2
    else if ltQ 0.4 positionRatio && ltQ positionRatio 0.6 then score + 1
    else score in
  let wordCount := JsArray.len (split " " sentence) in
  let score :=
    if (wordCount >=? 8) && (wordCount <=? 25) then score + 1 else score in
  mkScored sentence score index.

Definition scoreAll (sentences : list string) : list scored :=
  JsArray.mapi (scoreSentence (JsArray.len sentences)) sentences.

(** The comparator handed to [sort]: negative when [a] goes first. *)
Definition compareScored (a b : scored) : Z :=
  if negb (score a =? score b) then score b - score a
  else index a - index b.

(** [Array.prototype.sort] is a stable sort; it is modelled as a stable
    insertion sort.  An element is put in front of the first element it
    does not have to follow. *)
Fixpoint insertScored (x : scored) (l : list scored) : list scored :=
  match l with
  | [] => [x]
  | y :: r =>
      if compareScored x y <=? 0 then x :: l else y :: insertScored x r
  end.

Fixpoint sortScored (l : list scored) : list scored :=
  match l with
  | [] => []
  | x :: r => insertScored x (sortScored r)
  end.

(** The state of the selection loop: [selectedSentences] and
    [usedSentenceIndices], a [Set] kept in insertion order. *)
Definition selection : Type := (list string * list Z)%type.

Definition tooClose (usedSentenceIndices : list Z) (item : scored) : bool :=
  existsb (fun prevIndex => Z.abs (index item - prevIndex) <? 3)
          usedSentenceIndices.

(** [Set.prototype.add] *)
Definition setAdd (s : list Z) (x : Z) : list Z :=
  if existsb (Z.eqb x) s then s else (s ++ [x])%list.

(** One iteration of [for (const item of scoredSentences)]. *)
Definition selectStep (st : selection) (item : scored) : selection :=
  let '(selectedSentences, usedSentenceIndices) := st in
  if negb (tooClose usedSentenceIndices item)
     && (JsArray.len selectedSentences <? 5)
  then ((selectedSentences ++ [sentence item])%list,
        setAdd usedSentenceIndices (index item))
  else st.

Definition greedySelect (scoredSentences : list scored) : selection :=
  fold_left selectStep scoredSentences ([], []).

(** The five representative indices, first occurrences only. *)
Definition spreadIndices (totalSentences : Z) : list Z :=
  let arr :=
    [ 0;
      floorMul totalSentences 0.25;
      floorMul totalSentences 0.5;
      floorMul totalSentences 0.75;
      totalSentences - 1 ] in
  JsArray.filteri (fun idx pos => JsArray.indexOf arr idx =? pos) arr.

(** [.filter(Boolean)] on an array of strings and [undefined]s. *)
Fixpoint filterBoolean (l : list (option string)) : list string :=
  match l with
  | [] => []
  | Some s :: r =>
      if String.eqb s "" then filterBoolean r else s :: filterBoolean r
  | None :: r => filterBoolean r
  end.

Definition spreadFallback (sentences : list string) : list string :=
  filterBoolean
    (map (fun idx => JsArray.get sentences idx)
         (spreadIndices (JsArray.len sentences))).

(** [selectedSentences] after the loop and the first fallback. *)
Definition selectKeyPoints (sentences : list string) : list string :=
  let selectedSentences :=
    fst (greedySelect (sortScored (scoreAll sentences))) in
  if JsArray.len selectedSentences =? 0
  then (selectedSentences ++ spreadFallback sentences)%list
  else selectedSentences.

(** The second fallback: [sentences.slice(0, 3).join('. ').trim() + '.'] *)
Definition firstThree (sentences : list string) : list string :=
  JsArray.slice 0 3 sentences.

Definition renderKeyPoints (selectedSentences : list string) : string :=
  "## Key Points" ++ nl ++ nl ++
  join nl (JsArray.mapi
             (fun point index => ofZ (index + 1) ++ ". " ++ point)
             selectedSentences).

Definition keyPointsOfSentences (sentences : list string) : string :=
  let selectedSentences := selectKeyPoints sentences in
  if JsArray.len selectedSentences =? 0
  then trim (join ". " (firstThree sentences)) ++ "."
  else renderKeyPoints selectedSentences.

Definition invalidTranscript : string :=
  "Unable to generate summary: invalid transcript".
Definition invalidTitle : string :=
  "Unable to generate summary: invalid video title".
Definition invalidGuidance : string :=
  "Unable to generate summary: invalid guidance".
Definition noSentences : string :=
  "Unable to extract meaningful sentences from transcript.".

Definition generateKeyPointsSummary (transcript videoTitle : jsval)
  : string :=
  if invalidString transcript then invalidTranscript
  else if invalidString videoTitle then invalidTitle
  else
    let sentences := splitSentences (stringOf transcript) in
    if JsArray.len sentences =? 0 then noSentences
    else keyPointsOfSentences sentences.

(** *** Detailed summary: [generateDetailedSummary] *)

(** [targetLength] as a function of [transcriptLength = words.length]. *)
Definition targetLengthOf (transcriptLength : Z) : Z :=
  if transcriptLength <? 500 then floorMul transcriptLength 0.4
  else if transcriptLength <? 2000
       then Z.min 400 (floorMul transcriptLength 0.3)
       else Z.min 500 (floorMul transcriptLength 0.2).

Definition wordsOf (transcript : string) : list string :=
  split " " transcript.

(** [summary] before the truncation step. *)
Definition detailedDraft (transcript : string) : string :=
  let sentences :=
    filter (fun s => len (trim s) >? 10) (split "." transcript) in
  let n := JsArray.len sentences in
  let beginning := JsArray.slice 0 (ceilMul n 0.2) sentences in
  let middleStart := floorMul n 0.4 in
  let middle :=
    JsArray.slice middleStart (middleStart + ceilMul n 0.3) sentences in
  let end_ := JsArray.sliceFrom (- ceilMul n 0.2) sentences in
  let summarySentences :=
    filter (fun s => len s >? 0)
           (map trim (beginning ++ middle ++ end_)%list) in
  trim (join ". " summarySentences).

(** The body of [if (summary.length > targetLength * 5) { ... }]. *)
Definition truncateWords (summary : string) (targetLength : Z) : string :=
  let summaryWords := JsArray.slice 0 targetLength (split " " summary) in
  let summary := join " " summaryWords in
  if negb (endsWith summary ".") then summary ++ "..." else summary.

Definition detailedBody (transcript : string) : string :=
  let targetLength := targetLengthOf (JsArray.len (wordsOf transcript)) in
  let summary := detailedDraft transcript in
  if len summary >? targetLength * 5
  then truncateWords summary targetLength
  else summary.

Definition generateDetailedSummary (transcript videoTitle : jsval)
  : string :=
  if invalidString transcript then invalidTranscript
  else if invalidString videoTitle then invalidTitle
  else "## Summary" ++ nl ++ nl ++ detailedBody (stringOf transcript).

(** *** Guided summary: [generateGuidedSummary] *)

Definition generateGuidedSummary (transcript videoTitle guidance : jsval)
  : string :=
  if invalidString transcript then invalidTranscript
  else if invalidString videoTitle then invalidTitle
  else if invalidString guidance then invalidGuidance
  else
    let guidanceLower := toLowerCase (stringOf guidance) in
    if includes guidanceLower "brief" || includes guidanceLower "short"
       || includes guidanceLower "overview"
    then generateKeyPointsSummary transcript videoTitle
    else if includes guidanceLower "detailed"
            || includes guidanceLower "comprehensive"
            || includes guidanceLower "analysis"
    then generateDetailedSummary transcript videoTitle
    else if includes guidanceLower "key" || includes guidanceLower "points"
            || includes guidanceLower "bullet"
    then generateKeyPointsSummary transcript videoTitle
    else
      let baseSummary := generateDetailedSummary transcript videoTitle in
      "## Summary (Based on: " ++ stringOf guidance ++ ")" ++ nl ++ nl
      ++ baseSummary.

(** *** The tool: [execute] *)

Record SummaryResult : Type := mkResult
  { summary : string; summary_type : string }.

Record Args : Type := mkArgs
  { transcript : jsval; video_title : jsval; summary_guidance : jsval }.

(** What a call of [execute] ends with: the record that is serialized and
    returned, or the message of the [Error] thrown by the [catch] block. *)
Inductive completion : Type :=
| Returned (result : SummaryResult)
| Thrown (message : string).

Definition unavailableMessage : string :=
  "No transcript available for this video. The video may not have captions or they may not be accessible through the public API.".

Definition marker : string := "No transcript available for this video".

(** The test [!transcript || transcript.trim() === '' ||
    transcript.includes(marker)].  A transcript that is truthy and not a
    string has no [trim] method: the call raises a [TypeError], reported
    here as [None]. *)
Definition transcriptUnavailable (transcript : jsval) : option bool :=
  if negb (truthy transcript) then Some true
  else match transcript with
       | JStr t => Some (String.eqb (trim t) "" || includes t marker)
       | _ => None
       end.

Definition execute (args : Args) : completion :=
  match transcriptUnavailable (transcript args) with
  | None =>
      Thrown "Transcript summarizer failed: transcript.trim is not a function"
  | Some true =>
      Returned (mkResult unavailableMessage "unavailable")
  | Some false =>
      if truthy (summary_guidance args) then
        Returned
          (mkResult
             (generateGuidedSummary (transcript args) (video_title args)
                                    (summary_guidance args))
             "guided")
      else
        Returned
          (mkResult
             (generateKeyPointsSummary (transcript args) (video_title args))
             "key_points")
  end.

End Summarizer.

(** ** Vocabulary of the specification *)

Module Spec.
Import JsString Summarizer.

(** [p] occurs in [s]. *)
Definition Contains (s p : string) : Prop :=
  exists pre post, s = pre ++ p ++ post.

(** [p] occurs in [s] up to the case of the letters. *)
Definition ContainsCI (s p : string) : Prop :=
  exists pre mid post,
    s = pre ++ mid ++ post /\ toLowerCase mid = toLowerCase p.

(** One of the keywords of a group occurs in the guidance. *)
Definition matchesGroup (guidance : string) (group : list string) : Prop :=
  exists kw, In kw group /\ ContainsCI guidance kw.

Definition group1 : list string := ["brief"; "short"; "overview"].
Definition group2 : list string := ["detailed"; "comprehensive"; "analysis"].
Definition group3 : list string := ["key"; "points"; "bullet"].

(** Every phrase of the list is in lower case already. *)
Definition lowerAll (l : list string) : bool :=
  forallb (fun kw => String.eqb (toLowerCase kw) kw) l.

(** The disjunction of [includes] tests that the source writes for a
    group. *)
Definition test (g : string) (group : list string) : bool :=
  existsb (includes (toLowerCase g)) group.

(** A transcript that [execute] goes on to summarize: a string that is not
    blank and does not carry the marker phrase. *)
Definition usableTranscript (t : string) : Prop :=
  trim t <> "" /\ ~ Contains t marker.

(** Two indices are at least three sentences apart. *)
Definition apart (i j : Z) : Prop := 3 <= Z.abs (i - j).

(** The order in which [sort] leaves two different items: higher score
    first, earlier index first among equal scores. *)
Definition before (a b : scored) : Prop :=
  score b < score a \/ (score a = score b /\ index a < index b).

(** The reading under which a guidance that asks for detail is labelled
    [detailed]. *)
Definition detailed_guidance_labelled_detailed : Prop :=
  forall t title g,
    usableTranscript t -> title <> "" -> Contains g "detailed" ->
    exists r,
      execute (mkArgs (JStr t) (JStr title) (JStr g)) = Returned r
      /\ summary_type r = "detailed".

(** The distinct phrases of the keyword list that occur in the sentence up
    to case. *)
Definition matchedPhrases (s : string) (phrases : list string) : Prop :=
  NoDup phrases /\
  forall p, In p phrases <-> In p keyPointIndicators /\ ContainsCI s p.

(** The positional bonus of the sentence [i] of [n], by the ratio
    [r = i / n]: opening, closing, middle, in this order. *)
Definition positionBonus (i n : Z) (bonus : Z) : Prop :=
  let r := (inject_Z i / inject_Z n)%Q in
  let opening := (r < 0.2)%Q in
  let closing := (0.8 < r)%Q in
  let middle := (0.4 < r /\ r < 0.6)%Q in
  (opening /\ bonus = 2)
  \/ (~ opening /\ closing /\ bonus = 2)
  \/ (~ opening /\ ~ closing /\ middle /\ bonus = 1)
  \/ (~ opening /\ ~ closing /\ ~ middle /\ bonus = 0).

(** The length bonus: one for 8 to 25 words, the words being the pieces
    between single spaces. *)
Definition lengthBonus (s : string) (bonus : Z) : Prop :=
  let wordCount := JsArray.len (split " " s) in
  (8 <= wordCount <= 25 /\ bonus = 1)
  \/ (~ 8 <= wordCount <= 25 /\ bonus = 0).

(** No phrase occurs twice in the list. *)
Fixpoint distinctb (l : list string) : bool :=
  match l with
  | [] => true
  | x :: r => negb (existsb (String.eqb x) r) && distinctb r
  end.

(** [a] does not have to come after [b] for the comparator. *)
Definition notAfter (a b : scored) : Prop := compareScored a b <= 0.

(** The selection loop, seen on the items it accepts: [selectedSentences]
    is their sentences and [usedSentenceIndices] their indices. *)
Definition pickStep (picked : list scored) (item : scored) : list scored :=
  if negb (tooClose (map index picked) item) && (JsArray.len picked <? 5)
  then (picked ++ [item])%list
  else picked.

Definition picks (scoredSentences : list scored) : list scored :=
  fold_left pickStep scoredSentences [].

(** [l1] is [l2] with some elements left out. *)
Inductive sublist {A : Type} : list A -> list A -> Prop :=
| sublist_nil : sublist [] []
| sublist_take x l1 l2 : sublist l1 l2 -> sublist (x :: l1) (x :: l2)
| sublist_skip x l1 l2 : sublist l1 l2 -> sublist l1 (x :: l2).

(** The items that [generateKeyPointsSummary] sorts and walks. *)
Definition ranked (sentences : list string) : list scored :=
  sortScored (scoreAll sentences).

(** The reading under which two selected indices are never within 3 of
    each other, the distance 3 included. *)
Definition selected_beyond_three : Prop :=
  forall transcript p q i j,
    let usedSentenceIndices :=
      snd (greedySelect (ranked (splitSentences transcript))) in
    p <> q ->
    nth_error usedSentenceIndices p = Some i ->
    nth_error usedSentenceIndices q = Some j ->
    3 < Z.abs (i - j).

(** A transcript of four sentences without any phrase of the list. *)
Definition plain : string :=
  "Alpha beta gamma delta. Epsilon zeta eta theta. Iota kappa lambda mu. Nu xi omicron pi rho.".

(** The reading under which the numbered list follows the transcript: the
    indices of the selected sentences ascend. *)
Definition selection_in_transcript_order : Prop :=
  forall transcript,
    StronglySorted Z.lt
      (snd (greedySelect (ranked (splitSentences transcript)))).

(** A transcript of thirty one-letter sentences and one longer sentence. *)
Definition sparse : string :=
  "a. b. c. d. e. f. g. h. i. j. k. l. m. n. o. p. q. r. s. t. u. v. w. x. y. z. a. b. c. d. Hello big world.".

(** The example transcript of the specification. *)
Definition talk : string :=
  "This is important. We discuss three points. First, clarity matters. Second, brevity helps. Finally, remember the main idea.".

End Spec.

(** ** More string primitives *)

Module JsText.
Import JsString.

(** [s.substring(0, n)] and [s.substring(n)] *)
Fixpoint take (n : nat) (s : string) : string :=
  match n, s with
  | S k, String c r => String c (take k r)
  | _, _ => EmptyString
  end.

Fixpoint drop (n : nat) (s : string) : string :=
  match n, s with
  | S k, String _ r => drop k r
  | _, _ => s
  end.

(** Every character of [s] satisfies [p]. *)
Fixpoint forallChars (p : ascii -> bool) (s : string) : bool :=
  match s with
  | EmptyString => true
  | String c r => p c && forallChars p r
  end.

(** [s.replace(/[class]/g, '')] *)
Fixpoint removeChars (class : ascii -> bool) (s : string) : string :=
  match s with
  | EmptyString => EmptyString
  | String c r =>
      if class c then removeChars class r else String c (removeChars class r)
  end.

(** [s.replace(/c/g, d)] for single characters [c] and [d]. *)
Fixpoint replaceChar (c d : ascii) (s : string) : string :=
  match s with
  | EmptyString => EmptyString
  | String x r =>
      String (if Ascii.eqb x c then d else x) (replaceChar c d r)
  end.

(** The number of occurrences of [c] in [s]. *)
Fixpoint countChar (c : ascii) (s : string) : nat :=
  match s with
  | EmptyString => O
  | String x r =>
      if Ascii.eqb x c then S (countChar c r) else countChar c r
  end.

(** A character that [trim] leaves in place. *)
Definition notWhite (c : ascii) : bool := negb (isWhite c).

(** The double quote. *)
Definition dq : string := String (ascii_of_nat 34) EmptyString.

End JsText.

(** What a call ends with: a value, or the message of the [Error] that is
    thrown. *)
Inductive outcome (A : Type) : Type :=
| Ok (value : A)
| Throw (message : string).

Arguments Ok {A} value.
Arguments Throw {A} message.

(** ** Video identifiers and titles

    [extractVideoId] and [sanitizeTitle] of
    [.opencode/agent/youtube-processor.ts], and [validateYouTubeVideoId] of
    the transcript tool. *)

Module VideoId.
Import JsString JsText.

(** The character class [[a-zA-Z0-9_-]]. *)
Definition isIdChar (c : ascii) : bool :=
  let n := code c in
  ((97 <=? n) && (n <=? 122) || (65 <=? n) && (n <=? 90)
   || (48 <=? n) && (n <=? 57) || (n =? 95) || (n =? 45))%N.

(** [/^[a-zA-Z0-9_-]{11}$/.test(s)] *)
Definition isVideoId (s : string) : bool :=
  Nat.eqb (String.length s) 11 && forallChars isIdChar s.

(** [([a-zA-Z0-9_-]{11})] at the start of [s]: the group it captures. *)
Definition elevenIdChars (s : string) : option string :=
  let id := take 11 s in
  if isVideoId id then Some id else None.

(** One alternative of the non-capturing group, followed by the
    identifier, at the start of [s]. *)
Definition afterMarker (marker s : string) : option string :=
  if startsWith s marker
  then elevenIdChars (drop (String.length marker) s)
  else None.

(** The alternatives in the order of the pattern, at the start of [s]. *)
Fixpoint matchAt (markers : list string) (s : string) : option string :=
  match markers with
  | [] => None
  | marker :: rest =>
      match afterMarker marker s with
      | Some id => Some id
      | None => matchAt rest s
      end
  end.

(** [s.match(pattern)[1]]: the group of the leftmost match. *)
Fixpoint search (markers : list string) (s : string) : option string :=
  match matchAt markers s with
  | Some id => Some id
  | None =>
      match s with
      | EmptyString => None
      | String _ r => search markers r
      end
  end.

(** The alternatives of the two [urlPatterns]. *)
Definition standardMarkers : list string :=
  [ "youtube.com/watch?v="; "youtu.be/"; "youtube.com/embed/";
    "youtube.com/v/"; "m.youtube.com/watch?v=" ].

Definition shortsMarkers : list string := [ "youtube.com/shorts/" ].

Definition urlPatterns : list (list string) :=
  [ standardMarkers; shortsMarkers ].

(** [for (const pattern of urlPatterns) { ... return match[1] }] *)
Fixpoint firstMatch (patterns : list (list string)) (s : string)
  : option string :=
  match patterns with
  | [] => None
  | markers :: rest =>
      match search markers s with
      | Some id => Some id
      | None => firstMatch rest s
      end
  end.

Definition invalidInput (input : string) : string :=
  "Invalid YouTube URL or video ID: " ++ dq ++ input ++ dq
  ++ ". Expected format: https://www.youtube.com/watch?v=VIDEO_ID or direct 11-character video ID.".

Definition extractVideoId (input : string) : outcome string :=
  let trimmedInput := trim input in
  if isVideoId trimmedInput then Ok trimmedInput
  else match firstMatch urlPatterns trimmedInput with
       | Some id => Ok id
       | None => Throw (invalidInput input)
       end.

(** [validateYouTubeVideoId]: [None] when the function returns, the
    message of its error otherwise. *)
Definition validateYouTubeVideoId (videoId : jsval) : option string :=
  if invalidString videoId then Some "Video ID must be a non-empty string"
  else if negb (isVideoId (stringOf videoId))
       then Some "Invalid YouTube video ID format"
       else None.

(** The characters that a file name may not hold: angle brackets, colon,
    double quote, slash, backslash, bar, question mark and star. *)
Definition isForbidden (c : ascii) : bool :=
  let n := code c in
  ((n =? 60) || (n =? 62) || (n =? 58) || (n =? 34) || (n =? 47)
   || (n =? 92) || (n =? 124) || (n =? 63) || (n =? 42))%N.

(** The replacement of a leading opening bracket by nothing. *)
Definition dropLeadingBracket (s : string) : string :=
  match s with
  | String c r => if Ascii.eqb c "[" then r else s
  | EmptyString => s
  end.

(** The replacement of a closing bracket at the end by nothing. *)
Fixpoint dropTrailingBracket (s : string) : string :=
  match s with
  | EmptyString => EmptyString
  | String c EmptyString => if Ascii.eqb c "]" then EmptyString else s
  | String c r => String c (dropTrailingBracket r)
  end.

(** The beginnings of the URLs that the standard pattern is written
    for. *)
Definition standardForms : list string :=
  [ "https://www.youtube.com/watch?v="; "https://youtu.be/";
    "https://m.youtube.com/watch?v="; "https://www.youtube.com/embed/";
    "https://www.youtube.com/v/" ].

Definition shortsForm : string := "https://www.youtube.com/shorts/".

Definition notSlash (c : ascii) : bool := negb (Ascii.eqb c "/").

(** [sanitizeTitle] of the processor and of [utils/sanitize.ts]. *)
Definition sanitizeTitle (title : string) : string :=
  trim
    (removeChars isForbidden
       (replaceChar ":" "-"
          (dropTrailingBracket (dropLeadingBracket title)))).

End VideoId.

(** ** The processor

    [.opencode/agent/youtube-processor.ts]: the note that is generated and
    the tool that writes it.  The world outside is given: the transcript
    tool with the parsing of its answer is a function from the video
    identifier, the formatted date is a text, [path.join] is a function, and
    the file system is a map from paths to contents in which [mkdir] and
    [writeFile] succeed. *)

Module Processor.
Import JsString JsText VideoId.

Record VideoInfo : Type := mkVideoInfo
  { video_id : string; title : string; transcript : string;
    description : string }.

(** The argument of [generateObsidianMarkdown], with the date as
    [dateFormatter.format] renders it. *)
Record NoteData : Type := mkNoteData
  { noteTitle : string; videoId : string; videoUrl : string;
    userComments : option string; summary : option string;
    noteDescription : string; formattedDate : string }.

(** The replacement of every double quote by a backslash and a double
    quote. *)
Fixpoint escapeQuotes (s : string) : string :=
  match s with
  | EmptyString => EmptyString
  | String c r =>
      if Ascii.eqb c (ascii_of_nat 34)
      then "\" ++ dq ++ escapeQuotes r
      else String c (escapeQuotes r)
  end.

(** An optional text as a condition: it is there and not empty. *)
Definition given (text : option string) : bool :=
  match text with
  | Some t => negb (String.eqb t "")
  | None => false
  end.

Definition textOf (text : option string) : string :=
  match text with Some t => t | None => EmptyString end.

(** [text && text.trim()] as a condition. *)
Definition filled (text : option string) : bool :=
  given text && negb (String.eqb (trim (textOf text)) "").

Definition frontMatter (data : NoteData) : string :=
  "---" ++ nl
  ++ "title: " ++ dq ++ escapeQuotes (noteTitle data) ++ dq ++ nl
  ++ "video_id: " ++ dq ++ videoId data ++ dq ++ nl
  ++ "video_url: " ++ dq ++ videoUrl data ++ dq ++ nl
  ++ "processed_date: " ++ dq ++ formattedDate data ++ dq ++ nl
  ++ "tags: [" ++ dq ++ "youtube" ++ dq ++ ", " ++ dq ++ "video" ++ dq ++ "]"
  ++ nl ++ "---" ++ nl ++ nl.

Definition commentsSection (data : NoteData) : string :=
  if filled (userComments data)
  then "# Your Comments" ++ nl ++ nl ++ trim (textOf (userComments data))
       ++ nl ++ nl
  else EmptyString.

Definition summarySection (data : NoteData) : string :=
  if filled (summary data)
  then "# Summary" ++ nl ++ nl ++ trim (textOf (summary data)) ++ nl ++ nl
  else EmptyString.

Definition descriptionSection (data : NoteData) : string :=
  "# Video Description" ++ nl ++ nl
  ++ (if String.eqb (trim (noteDescription data)) ""
      then "No description available."
      else trim (noteDescription data)).

Definition generateObsidianMarkdown (data : NoteData) : string :=
  frontMatter data ++ commentsSection data ++ summarySection data
  ++ descriptionSection data.

(** The files: the content behind every path that exists. *)
Definition files : Type := string -> option string.

(** [fs.access(path)] resolves. *)
Definition present (fs : files) (path : string) : bool :=
  match fs path with Some _ => true | None => false end.

(** [fs.writeFile(path, content)] *)
Definition writeFile (fs : files) (path content : string) : files :=
  fun p => if String.eqb p path then Some content else fs p.

Record Args : Type := mkArgs
  { youtube_input : string; user_comments : option string;
    output_location : option string; summary_guidance : option string;
    overwrite_file : option bool }.

Definition optional (text : option string) : jsval :=
  match text with Some t => JStr t | None => JUndefined end.

Section Environment.

(** [youtubeTranscript.execute] followed by [JSON.parse]. *)
Variable youtubeTranscript : string -> outcome VideoInfo.

(** [dateFormatter.format(new Date())] *)
Variable today : string.

Variable pathJoin : string -> string -> string.

Definition saveMarkdownFile (content filename directory : string)
  (fs : files) : outcome string * files :=
  let filePath := pathJoin directory filename in
  if present fs filePath then (Ok filePath, fs)
  else (Ok filePath, writeFile fs filePath content).

(** Step 3 of [execute]: the summary, when a transcript is there. *)
Definition summaryOf (videoInfo : VideoInfo) (guidance : option string)
  : outcome (option string) :=
  if negb (String.eqb (transcript videoInfo) "")
     && negb (includes (transcript videoInfo) "No transcript available")
  then
    match Summarizer.execute
            (Summarizer.mkArgs (JStr (transcript videoInfo))
                               (JStr (title videoInfo))
                               (optional guidance)) with
    | Summarizer.Returned summaryData =>
        Ok (Some (Summarizer.summary summaryData))
    | Summarizer.Thrown message => Throw message
    end
  else Ok None.

Definition isTrue (flag : option bool) : bool :=
  match flag with Some true => true | _ => false end.

(** The body of the [try] block of [execute]. *)
Definition process (args : Args) (fs : files) : outcome string * files :=
  match extractVideoId (youtube_input args) with
  | Throw message => (Throw message, fs)
  | Ok videoId =>
      match youtubeTranscript videoId with
      | Throw message => (Throw message, fs)
      | Ok videoInfo =>
          match summaryOf videoInfo (summary_guidance args) with
          | Throw message => (Throw message, fs)
          | Ok summary =>
              let markdownContent :=
                generateObsidianMarkdown
                  (mkNoteData (title videoInfo) (video_id videoInfo)
                     ("https://www.youtube.com/watch?v=" ++ videoId)
                     (user_comments args) summary (description videoInfo)
                     today) in
              let filename := sanitizeTitle (title videoInfo) ++ ".md" in
              if given (output_location args)
              then
                let directory := textOf (output_location args) in
                let filePath := pathJoin directory filename in
                if present fs filePath && negb (isTrue (overwrite_file args))
                then
                  (Ok ("File already exists at " ++ filePath
                       ++ ". Set overwrite_file=true to overwrite it."
                       ++ nl ++ nl ++ markdownContent), fs)
                else
                  match saveMarkdownFile markdownContent filename directory
                                         fs with
                  | (Ok _, fs') =>
                      (Ok ("Successfully saved Obsidian markdown file to: "
                           ++ pathJoin directory filename), fs')
                  | (Throw message, fs') => (Throw message, fs')
                  end
              else
                (Ok ("No output location specified. Here's the Obsidian markdown content:"
                     ++ nl ++ nl ++ markdownContent), fs)
          end
      end
  end.

Definition execute (args : Args) (fs : files) : outcome string * files :=
  match process args fs with
  | (Throw message, fs') =>
      (Throw ("YouTube processor failed: " ++ message), fs')
  | done => done
  end.

End Environment.

(** An environment to run the processor in: a transcript tool that knows
    one talk, a fixed date, and paths joined by a slash. *)
Definition talkTool (videoId : string) : outcome VideoInfo :=
  Ok (mkVideoInfo videoId "Talk"
        "This is important. We discuss three points. First, clarity matters. Second, brevity helps. Finally, remember the main idea."
        "A talk.").

Definition slashJoin (directory filename : string) : string :=
  directory ++ "/" ++ filename.

Definition oneNote : files :=
  fun p => if String.eqb p "notes/Talk.md" then Some "my own text" else None.

Definition talkArgs (overwrite : option bool) : Args :=
  mkArgs "https://youtu.be/dQw4w9WgXcQ" None (Some "notes") None overwrite.

End Processor.

(** ** The title sanitizer of the build

    [sanitizeTitle] of the compiled [utils/sanitize.js].  Below 256 every
    character is its own NFC form, and none lies in the ranges of emojis,
    symbols and general punctuation that the function removes. *)

Module Sanitize.
Import JsString JsText VideoId.

(** [title.normalize('NFC')] *)
Definition normalizeNFC (s : string) : string := s.

(** [s.replace(/[\u{lo}-\u{hi}]/gu, '')] *)
Definition removeRange (lo hi : N) (s : string) : string :=
  removeChars (fun c => ((lo <=? code c) && (code c <=? hi))%N) s.

(** The characters that a file name may not hold, and the control
    characters [\x00-\x1f] and [\x7f-\x9f]. *)
Definition isUnsafe (c : ascii) : bool :=
  let n := code c in
  isForbidden c || (n <=? 31)%N || ((127 <=? n) && (n <=? 159))%N.

(** The replacement of every run of white space by one space; [inrun]
    records that the previous character was white space. *)
Fixpoint collapseWhite (s : string) (inrun : bool) : string :=
  match s with
  | EmptyString => EmptyString
  | String c r =>
      if isWhite c
      then if inrun then collapseWhite r true
           else String " " (collapseWhite r true)
      else String c (collapseWhite r false)
  end.

Definition sanitizeTitle (title : string) : string :=
  let s := normalizeNFC title in
  let s := dropLeadingBracket s in
  let s := dropTrailingBracket s in
  let s := replaceChar ":" "-" s in
  let s := removeChars isUnsafe s in
  let s := removeRange 128512 128591 s in   (* 1F600-1F64F *)
  let s := removeRange 127744 128511 s in   (* 1F300-1F5FF *)
  let s := removeRange 128640 128767 s in   (* 1F680-1F6FF *)
  let s := removeRange 127456 127487 s in   (* 1F1E0-1F1FF *)
  let s := removeRange 9728 9983 s in       (* 2600-26FF *)
  let s := removeRange 8192 8303 s in       (* 2000-206F *)
  let s := collapseWhite s false in
  let s := trim s in
  take 100 s.

(** The only white space of [s] is the single space between two words;
    [afterSpace] tells that a space stands in front of [s]. *)
Fixpoint singleSpaced (afterSpace : bool) (s : string) : bool :=
  match s with
  | EmptyString => true
  | String c r =>
      if isWhite c
      then Ascii.eqb c " " && negb afterSpace && singleSpaced true r
      else singleSpaced false r
  end.

End Sanitize.

(** ** The summarizer of the sources

    The TypeScript source [transcript-summarizer.ts]: an earlier form of the
    summarizer, without the guards, that lists the first five sentences with
    a keyword. *)

Module Legacy.
Import JsString JsText.

Definition keyPointIndicators : list string :=
  [ "important"; "key"; "main"; "primary"; "essential"; "crucial";
    "first"; "second"; "third"; "finally"; "in conclusion";
    "remember"; "note that"; "keep in mind"; "the point is" ].

(** [transcript.split('.').filter(s => s.trim().length > 20)] *)
Definition sentencesOf (transcript : string) : list string :=
  filter (fun s => len (trim s) >? 20) (split "." transcript).

Definition hasIndicator (sentence : string) : bool :=
  existsb (fun indicator => includes (toLowerCase sentence) indicator)
          keyPointIndicators.

Definition keyPointsOf (transcript : string) : list string :=
  map trim (JsArray.slice 0 5 (filter hasIndicator (sentencesOf transcript))).

Definition generateKeyPointsSummary (transcript videoTitle : string)
  : string :=
  let sentences := sentencesOf transcript in
  let keyPoints := keyPointsOf transcript in
  if JsArray.len keyPoints =? 0
  then trim (join ". " (JsArray.slice 0 3 sentences)) ++ "."
  else "## Key Points" ++ nl ++ nl ++
       join nl (JsArray.mapi
                  (fun point index => ofZ (index + 1) ++ ". " ++ point)
                  keyPoints).

End Legacy.

(** ** The captions

    [parseTranscriptXML] of the transcript tool: the texts of the [text]
    elements of a caption document, joined and decoded. *)

Module Captions.
Import JsString JsText.

Definition isGt (c : ascii) : bool := Ascii.eqb c ">".
Definition isLt (c : ascii) : bool := Ascii.eqb c "<".
Definition isAmp (c : ascii) : bool := Ascii.eqb c "&".

(** The characters in front of the first one that satisfies [stop], and
    the text from that one on: what a starred negated class takes and what
    it leaves. *)
Fixpoint span (stop : ascii -> bool) (s : string) : string * string :=
  match s with
  | EmptyString => (EmptyString, EmptyString)
  | String c r =>
      if stop c then (EmptyString, s)
      else let (taken, left) := span stop r in (String c taken, left)
  end.

(** The pattern of a [text] element at the start of [s]: the group that
    it captures and the length of the match.  The tag name, any
    characters but a closing angle bracket, the bracket, any characters
    but an opening angle bracket, which are the group, and the closing
    tag. *)
Definition elementAt (s : string) : option (string * nat) :=
  if startsWith s "<text" then
    let (attributes, s1) := span isGt (drop 5 s) in
    match s1 with
    | String _ s2 =>
        let (inner, s3) := span isLt s2 in
        if startsWith s3 "</text>"
        then Some (inner,
                   (5 + String.length attributes + 1
                    + String.length inner + 7)%nat)
        else None
    | EmptyString => None
    end
  else None.

(** The groups of all matches of the pattern from left to right, a match
    being looked for where the previous one has ended; [skip] counts the
    characters of the previous match that are still to be passed. *)
Fixpoint groups (s : string) (skip : nat) : list string :=
  match s with
  | EmptyString => []
  | String _ r =>
      match skip with
      | S k => groups r k
      | O =>
          match elementAt s with
          | Some (inner, n) => inner :: groups r (n - 1)
          | None => groups r 0
          end
      end
  end.

(** The replacement of every occurrence of the text [pattern], which is
    not empty, from left to right. *)
Fixpoint replaceAll (pattern replacement s : string) (skip : nat) : string :=
  match s with
  | EmptyString => EmptyString
  | String c r =>
      match skip with
      | S k => replaceAll pattern replacement r k
      | O =>
          if startsWith s pattern
          then replacement
               ++ replaceAll pattern replacement r
                    (String.length pattern - 1)
          else String c (replaceAll pattern replacement r 0)
      end
  end.

Definition decodeEntities (s : string) : string :=
  let s := replaceAll "&amp;" "&" s 0 in
  let s := replaceAll "&lt;" "<" s 0 in
  let s := replaceAll "&gt;" ">" s 0 in
  let s := replaceAll "&quot;" dq s 0 in
  replaceAll "&#39;" "'" s 0.

Definition parseTranscriptXML (xmlText : string) : string :=
  if String.eqb xmlText "" || String.eqb (trim xmlText) "" then EmptyString
  else
    match groups xmlText 0 with
    | [] => EmptyString
    | textMatches => trim (decodeEntities (join " " textMatches))
    end.

(** A [text] element with its attributes and its content. *)
Definition element (e : string * string) : string :=
  "<text" ++ fst e ++ ">" ++ snd e ++ "</text>".

Fixpoint elements (l : list (string * string)) : string :=
  match l with
  | [] => EmptyString
  | e :: r => element e ++ elements r
  end.

(** A caption document as the timed-text endpoint answers it. *)
Definition document (l : list (string * string)) : string :=
  "<?xml version=" ++ dq ++ "1.0" ++ dq ++ " encoding=" ++ dq ++ "utf-8"
  ++ dq ++ " ?><transcript>" ++ elements l ++ "</transcript>".

(** Attributes without a closing bracket, content without an opening
    bracket and without an ampersand. *)
Definition plainElement (e : string * string) : bool :=
  forallChars (fun c => negb (isGt c)) (fst e)
  && forallChars (fun c => negb (isLt c)) (snd e)
  && forallChars (fun c => negb (isAmp c)) (snd e).

End Captions.

(** ** Strings: facts about the primitives *)

Module JsStringFacts.
Import JsString Spec.

Lemma append_nil_r (s : string) : s ++ "" = s.
Proof. induction s; simpl; congruence. Qed.

Lemma append_assoc (a b c : string) : (a ++ b) ++ c = a ++ (b ++ c).
Proof. induction a; simpl; congruence. Qed.

Lemma startsWith_spec (s p : string) :
  startsWith s p = true <-> exists post, s = p ++ post.
Proof.
  revert s; induction p as [|a p IH]; intros s.
  - split; [intros _; now exists s | intros _; now destruct s].
  - destruct s as [|b s]; cbn [startsWith].
    + split; [discriminate | intros [post H]; discriminate].
    + rewrite andb_true_iff, Ascii.eqb_eq, IH. split.
      * intros [-> [post ->]]. now exists post.
      * intros [post H]. injection H as -> ->. split; [reflexivity | now exists post].
Qed.

Lemma includes_spec (s p : string) :
  includes s p = true <-> Contains s p.
Proof.
  unfold Contains. induction s as [|c s IH].
  - cbn [includes]. rewrite orb_false_r, startsWith_spec. split.
    + intros [post H]. now exists "", post.
    + intros [pre [post H]]. destruct pre; [now exists post | discriminate].
  - cbn [includes]. rewrite orb_true_iff, startsWith_spec, IH. split.
    + intros [[post H] | [pre [post H]]].
      * now exists "", post.
      * exists (String c pre), post. simpl. now rewrite H.
    + intros [pre [post H]]. destruct pre as [|d pre].
      * left. now exists post.
      * right. simpl in H. injection H as -> ->. now exists pre, post.
Qed.

Lemma toLowerCase_app (a b : string) :
  toLowerCase (a ++ b) = toLowerCase a ++ toLowerCase b.
Proof. induction a; simpl; congruence. Qed.

Lemma toLowerCase_app_inv (s a b : string) :
  toLowerCase s = a ++ b ->
  exists a' b', s = a' ++ b' /\ toLowerCase a' = a /\ toLowerCase b' = b.
Proof.
  revert s; induction a as [|c a IH]; intros s H.
  - exists "", s. auto.
  - destruct s as [|d s]; [discriminate|]. simpl in H.
    injection H as Hc Hs. destruct (IH _ Hs) as [a' [b' [-> [Ha Hb]]]].
    exists (String d a'), b'. simpl. now rewrite Hc, Ha, Hb.
Qed.

(** Searching a lower-case needle in the lower-cased text is matching up
    to case. *)
Lemma includes_lower (s p : string) :
  toLowerCase p = p ->
  includes (toLowerCase s) p = true <-> ContainsCI s p.
Proof.
  intros Hp. rewrite includes_spec. unfold Contains, ContainsCI. split.
  - intros [pre [post H]].
    destruct (toLowerCase_app_inv _ _ _ H) as [pre' [r [-> [_ Hr]]]].
    destruct (toLowerCase_app_inv _ _ _ Hr) as [mid [post' [-> [Hm _]]]].
    exists pre', mid, post'. split; [reflexivity | congruence].
  - intros [pre [mid [post [-> Hm]]]].
    exists (toLowerCase pre), (toLowerCase post).
    rewrite !toLowerCase_app. congruence.
Qed.

Lemma ContainsCI_dec (s p : string) :
  toLowerCase p = p -> {ContainsCI s p} + {~ ContainsCI s p}.
Proof.
  intros Hp. destruct (includes (toLowerCase s) p) eqn:E.
  - left. now apply includes_lower.
  - right. intros H. apply (includes_lower s p Hp) in H. congruence.
Qed.

End JsStringFacts.

(** ** The tool boundary *)

Module ExecuteFacts.
Import JsString Summarizer Spec JsStringFacts.

Lemma Contains_nonempty (s p : string) :
  Contains s p -> p <> "" -> s <> "".
Proof.
  intros [pre [post ->]] Hp E.
  destruct pre; [destruct p; [congruence | discriminate] | discriminate].
Qed.

Lemma truthy_JStr (s : string) : s <> "" -> truthy (JStr s) = true.
Proof.
  intros H. simpl. destruct (String.eqb_spec s ""); [contradiction | reflexivity].
Qed.

Lemma invalidString_JStr (s : string) :
  s <> "" -> invalidString (JStr s) = false.
Proof. intros H. unfold invalidString. now rewrite truthy_JStr. Qed.

Lemma usable_nonempty (t : string) : usableTranscript t -> t <> "".
Proof. intros [H _] ->. now apply H. Qed.

Lemma usable_passes (t : string) :
  usableTranscript t -> transcriptUnavailable (JStr t) = Some false.
Proof.
  intros U. pose proof (usable_nonempty t U) as Hne. destruct U as [Ht Hm].
  unfold transcriptUnavailable. rewrite (truthy_JStr t Hne). simpl.
  destruct (String.eqb_spec (trim t) ""); [contradiction|].
  destruct (includes t marker) eqn:E; [|reflexivity].
  apply includes_spec in E. contradiction.
Qed.

Lemma usable_talk : usableTranscript talk.
Proof.
  split.
  - vm_compute. discriminate.
  - intros H. apply includes_spec in H. vm_compute in H. discriminate.
Qed.

(** With a usable transcript the label depends on the presence of a
    guidance only. *)
Lemma execute_usable (t : string) (title guidance : jsval) :
  usableTranscript t ->
  execute (mkArgs (JStr t) title guidance) =
  if truthy guidance
  then Returned (mkResult (generateGuidedSummary (JStr t) title guidance)
                          "guided")
  else Returned (mkResult (generateKeyPointsSummary (JStr t) title)
                          "key_points").
Proof.
  intros U. unfold execute. cbn [transcript summary_guidance video_title].
  now rewrite (usable_passes t U).
Qed.

(** An invalid title leaves the label of the mode in place. *)
Lemma execute_invalid_title (t : string) (title guidance : jsval) :
  usableTranscript t -> invalidString title = true ->
  execute (mkArgs (JStr t) title guidance) =
  Returned (mkResult invalidTitle
                     (if truthy guidance then "guided" else "key_points")).
Proof.
  intros U Ht. rewrite (execute_usable t title guidance U).
  unfold generateGuidedSummary, generateKeyPointsSummary.
  rewrite (invalidString_JStr t (usable_nonempty t U)), Ht.
  now destruct (truthy guidance).
Qed.

(** C3. A transcript that is missing, blank after trimming, or that
    contains the phrase "No transcript available for this video" makes
    [execute] return the record with the fixed unavailable message and the
    type "unavailable", whatever the title and the guidance are; nothing is
    thrown. *)
Theorem unavailable_transcript_result (tr title guidance : jsval) :
  tr = JUndefined \/ tr = JNull \/
  (exists t, tr = JStr t /\ (trim t = "" \/ Contains t marker)) ->
  execute (mkArgs tr title guidance) =
  Returned (mkResult unavailableMessage "unavailable").
Proof.
  intros [-> | [-> | [t [-> H]]]]; try reflexivity.
  unfold execute, transcriptUnavailable. cbn [transcript].
  destruct (truthy (JStr t)); [|reflexivity]. cbn [negb].
  destruct H as [H | H].
  - now rewrite H.
  - apply includes_spec in H. rewrite H. now rewrite orb_true_r.
Qed.

Lemma unavailable_transcript_witness :
  trim "" = "" /\
  execute (mkArgs (JStr "") (JStr "X") JUndefined) =
  Returned (mkResult unavailableMessage "unavailable").
Proof.
  split; [reflexivity|].
  apply (unavailable_transcript_result (JStr "") (JStr "X") JUndefined).
  right; right. exists "". split; [reflexivity | left; reflexivity].
Defined.

(** The marker scenario of the specification. *)
Example unavailable_marker_scenario :
  execute (mkArgs (JStr "No transcript available for this video.")
                  (JStr "X") JUndefined) =
  Returned (mkResult unavailableMessage "unavailable").
Proof. reflexivity. Qed.

(** A transcript that is neither missing nor a string is the one input
    on which [execute] throws. *)
Example execute_throws_on_number :
  execute (mkArgs (JNum 4) (JStr "X") JUndefined) =
  Thrown "Transcript summarizer failed: transcript.trim is not a function".
Proof. reflexivity. Qed.

(** C1, as stated, fails: the guidance "detailed analysis please" on the
    example transcript is answered with the type "guided". *)
Lemma detailed_guidance_not_labelled_detailed :
  ~ detailed_guidance_labelled_detailed.
Proof.
  intros H.
  destruct (H talk "Talk" "detailed analysis please" usable_talk)
    as [r [E T]].
  - discriminate.
  - now exists "", " analysis please".
  - vm_compute in E. injection E as <-. discriminate T.
Qed.

(** C1, amended. For a usable transcript and a non-empty title, a guidance
    that contains "detailed" is answered with the type "guided"; the
    summary is the guided summary, which for the guidance
    "detailed analysis please" is the detailed summary. *)
Theorem detailed_guidance_labelled_guided (t title g : string) :
  usableTranscript t -> title <> "" -> Contains g "detailed" ->
  execute (mkArgs (JStr t) (JStr title) (JStr g)) =
  Returned (mkResult (generateGuidedSummary (JStr t) (JStr title) (JStr g))
                     "guided")
  /\ execute (mkArgs (JStr t) (JStr title)
                     (JStr "detailed analysis please")) =
     Returned (mkResult (generateDetailedSummary (JStr t) (JStr title))
                        "guided").
Proof.
  intros U Ht Hg.
  assert (Hne : g <> "") by (apply (Contains_nonempty g "detailed" Hg); discriminate).
  rewrite !(execute_usable _ _ _ U), (truthy_JStr g Hne). split; [reflexivity|].
  cbn [truthy String.eqb negb]. do 2 f_equal.
  unfold generateGuidedSummary, generateDetailedSummary.
  rewrite (invalidString_JStr t (usable_nonempty t U)),
          (invalidString_JStr title Ht).
  reflexivity.
Qed.

Lemma detailed_guidance_labelled_guided_witness :
  execute (mkArgs (JStr talk) (JStr "Talk")
                  (JStr "detailed analysis please")) =
  Returned (mkResult (generateDetailedSummary (JStr talk) (JStr "Talk"))
                     "guided").
Proof.
  refine (proj2 (detailed_guidance_labelled_guided
                   talk "Talk" "detailed analysis please" usable_talk _ _)).
  - discriminate.
  - now exists "", " analysis please".
Defined.

(** C2, evaluated on the code. With the example transcript and an empty
    title the record carries the message of the title guard under the type
    "key_points", not "unavailable". *)
Theorem empty_title_keeps_key_points_label :
  execute (mkArgs (JStr talk) (JStr "") JUndefined) =
  Returned (mkResult "Unable to generate summary: invalid video title"
                     "key_points")
  /\ execute (mkArgs (JStr talk) JUndefined (JStr "brief")) =
     Returned (mkResult "Unable to generate summary: invalid video title"
                        "guided").
Proof. split; reflexivity. Qed.

End ExecuteFacts.

(** ** Mode selection by guidance *)

Module GuidedFacts.
Import JsString Summarizer Spec JsStringFacts ExecuteFacts.

Lemma lowerAll_In (l : list string) (kw : string) :
  lowerAll l = true -> In kw l -> toLowerCase kw = kw.
Proof.
  unfold lowerAll. rewrite forallb_forall. intros H Hin.
  now apply String.eqb_eq, H.
Qed.

(** The boolean test of the source decides the match of a group. *)
Lemma matchesGroup_existsb (g : string) (group : list string) :
  lowerAll group = true ->
  existsb (includes (toLowerCase g)) group = true <-> matchesGroup g group.
Proof.
  intros Hl. rewrite existsb_exists. unfold matchesGroup.
  split; intros [kw [Hin H]]; exists kw; split; trivial;
    apply (includes_lower g kw (lowerAll_In group kw Hl Hin)); exact H.
Qed.

Lemma matchesGroup_nonempty (g : string) (group : list string) :
  lowerAll group = true -> ~ In "" group ->
  matchesGroup g group -> g <> "".
Proof.
  intros Hl Hn [kw [Hin [pre [mid [post [-> Hm]]]]]] E.
  destruct pre; [|discriminate]. destruct mid; [|discriminate].
  simpl in Hm. destruct kw; [contradiction | discriminate].
Qed.

Lemma test_matches (g : string) (group : list string) :
  lowerAll group = true -> test g group = true -> matchesGroup g group.
Proof. intros Hl H. now apply matchesGroup_existsb. Qed.

Lemma test_not_matches (g : string) (group : list string) :
  lowerAll group = true -> test g group = false -> ~ matchesGroup g group.
Proof.
  intros Hl H M. apply matchesGroup_existsb in M; trivial.
  unfold test in H. congruence.
Qed.

(** The chain of tests of [generateGuidedSummary], for a guidance that is
    a non-empty string. *)
Lemma guided_chain (transcript videoTitle : jsval) (g : string) :
  g <> "" ->
  generateGuidedSummary transcript videoTitle (JStr g) =
  if invalidString transcript then invalidTranscript
  else if invalidString videoTitle then invalidTitle
  else if test g group1
       then generateKeyPointsSummary transcript videoTitle
       else if test g group2
            then generateDetailedSummary transcript videoTitle
            else if test g group3
                 then generateKeyPointsSummary transcript videoTitle
                 else "## Summary (Based on: " ++ g ++ ")" ++ nl ++ nl
                      ++ generateDetailedSummary transcript videoTitle.
Proof.
  intros Hg. unfold generateGuidedSummary, test, group1, group2, group3.
  rewrite (invalidString_JStr g Hg). cbn [existsb stringOf].
  rewrite !orb_false_r, !orb_assoc. reflexivity.
Qed.

Lemma keyPoints_guard (transcript videoTitle : jsval) :
  generateKeyPointsSummary transcript videoTitle =
  if invalidString transcript then invalidTranscript
  else if invalidString videoTitle then invalidTitle
  else generateKeyPointsSummary transcript videoTitle.
Proof.
  unfold generateKeyPointsSummary.
  destruct (invalidString transcript), (invalidString videoTitle); reflexivity.
Qed.

Lemma detailed_guard (transcript videoTitle : jsval) :
  generateDetailedSummary transcript videoTitle =
  if invalidString transcript then invalidTranscript
  else if invalidString videoTitle then invalidTitle
  else generateDetailedSummary transcript videoTitle.
Proof.
  unfold generateDetailedSummary.
  destruct (invalidString transcript), (invalidString videoTitle); reflexivity.
Qed.

Ltac group_facts :=
  repeat match goal with
    | H : matchesGroup _ _ |- _ =>
        apply matchesGroup_existsb in H; [|reflexivity]
    | H : ~ matchesGroup ?g ?grp |- _ =>
        let E := fresh "E" in
        assert (E : test g grp = false)
          by (unfold test; destruct (existsb (includes (toLowerCase g)) grp) eqn:X;
              [exfalso; apply H; apply matchesGroup_existsb; [reflexivity | exact X]
              | reflexivity]);
        clear H
    end.

(** C7. The keyword groups are matched up to case in the order
    {brief, short, overview}, {detailed, comprehensive, analysis},
    {key, points, bullet}, and the first group that matches fixes the body:
    key points, detailed, key points.  The guidance
    "short but comprehensive" gives the key-points body. *)
Theorem guidance_group_precedence (transcript videoTitle : jsval)
  (g : string) :
  (matchesGroup g group1 ->
   generateGuidedSummary transcript videoTitle (JStr g) =
   generateKeyPointsSummary transcript videoTitle)
  /\ (~ matchesGroup g group1 -> matchesGroup g group2 ->
      generateGuidedSummary transcript videoTitle (JStr g) =
      generateDetailedSummary transcript videoTitle)
  /\ (~ matchesGroup g group1 -> ~ matchesGroup g group2 ->
      matchesGroup g group3 ->
      generateGuidedSummary transcript videoTitle (JStr g) =
      generateKeyPointsSummary transcript videoTitle)
  /\ generateGuidedSummary transcript videoTitle
       (JStr "short but comprehensive") =
     generateKeyPointsSummary transcript videoTitle.
Proof.
  assert (N : forall grp, In grp [group1; group2; group3] ->
                          matchesGroup g grp -> g <> "").
  { intros grp Hin. apply matchesGroup_nonempty.
    - simpl in Hin. destruct Hin as [<- | [<- | [<- | []]]]; reflexivity.
    - simpl in Hin. destruct Hin as [<- | [<- | [<- | []]]];
        unfold group1, group2, group3; simpl; intuition discriminate. }
  repeat split.
  - intros M1. rewrite (guided_chain _ _ g (N group1 (or_introl eq_refl) M1)).
    group_facts. unfold test. rewrite M1.
    symmetry. apply keyPoints_guard.
  - intros M1 M2. rewrite (guided_chain _ _ g (N group2 (or_intror (or_introl eq_refl)) M2)).
    group_facts. rewrite E. unfold test. rewrite M2.
    symmetry. apply detailed_guard.
  - intros M1 M2 M3.
    rewrite (guided_chain _ _ g (N group3 (or_intror (or_intror (or_introl eq_refl))) M3)).
    group_facts. rewrite E, E0. unfold test. rewrite M3.
    symmetry. apply keyPoints_guard.
  - rewrite guided_chain by discriminate.
    symmetry. apply keyPoints_guard.
Qed.

Lemma guidance_group_precedence_witness :
  generateGuidedSummary (JStr talk) (JStr "Talk") (JStr "Brief AND Detailed")
  = generateKeyPointsSummary (JStr talk) (JStr "Talk")
  /\ generateGuidedSummary (JStr talk) (JStr "Talk") (JStr "An ANALYSIS")
     = generateDetailedSummary (JStr talk) (JStr "Talk")
  /\ generateGuidedSummary (JStr talk) (JStr "Talk") (JStr "Bullet list")
     = generateKeyPointsSummary (JStr talk) (JStr "Talk").
Proof.
  split; [|split].
  - refine (proj1 (guidance_group_precedence
                     (JStr talk) (JStr "Talk") "Brief AND Detailed") _).
    apply test_matches; reflexivity.
  - refine (proj1 (proj2 (guidance_group_precedence
                            (JStr talk) (JStr "Talk") "An ANALYSIS")) _ _).
    + apply test_not_matches; reflexivity.
    + apply test_matches; reflexivity.
  - refine (proj1 (proj2 (proj2 (guidance_group_precedence
                                   (JStr talk) (JStr "Talk") "Bullet list")))
                  _ _ _).
    + apply test_not_matches; reflexivity.
    + apply test_not_matches; reflexivity.
    + apply test_matches; reflexivity.
Defined.

End GuidedFacts.

(** ** The selection of key points *)

Module SelectionFacts.
Import JsString Summarizer Spec.

Lemma len_app {A : Type} (l1 l2 : list A) :
  JsArray.len (l1 ++ l2) = JsArray.len l1 + JsArray.len l2.
Proof. unfold JsArray.len. rewrite length_app. lia. Qed.

Lemma len_map {A B : Type} (f : A -> B) (l : list A) :
  JsArray.len (map f l) = JsArray.len l.
Proof. unfold JsArray.len. now rewrite length_map. Qed.

Lemma len_nonneg {A : Type} (l : list A) : 0 <= JsArray.len l.
Proof. unfold JsArray.len. lia. Qed.

Lemma len_zero {A : Type} (l : list A) : JsArray.len l = 0 <-> l = [].
Proof.
  unfold JsArray.len. destruct l; simpl; split; intros H;
    try reflexivity; try discriminate; lia.
Qed.

(** *** The loop and its items *)

Lemma tooClose_spec (used : list Z) (item : scored) :
  tooClose used item = false <-> Forall (fun j => apart j (index item)) used.
Proof.
  unfold tooClose, apart. rewrite Forall_forall. split.
  - intros H j Hj. destruct (Z.abs (index item - j) <? 3) eqn:E.
    + assert (X : existsb (fun p => Z.abs (index item - p) <? 3) used = true)
        by (apply existsb_exists; now exists j).
      congruence.
    + apply Z.ltb_ge in E. lia.
  - intros H. destruct (existsb _ used) eqn:E; [|reflexivity].
    apply existsb_exists in E. destruct E as [j [Hj E]].
    apply Z.ltb_lt in E. specialize (H j Hj). lia.
Qed.

Lemma setAdd_fresh (used : list Z) (item : scored) :
  tooClose used item = false ->
  setAdd used (index item) = (used ++ [index item])%list.
Proof.
  intros H. unfold setAdd.
  destruct (existsb (Z.eqb (index item)) used) eqn:E; [|reflexivity].
  apply existsb_exists in E. destruct E as [j [Hj E]].
  apply Z.eqb_eq in E. subst j.
  apply tooClose_spec in H. rewrite Forall_forall in H.
  specialize (H _ Hj). unfold apart in H. lia.
Qed.

Lemma selectStep_pickStep (picked : list scored) (item : scored) :
  selectStep (map sentence picked, map index picked) item =
  (map sentence (pickStep picked item), map index (pickStep picked item)).
Proof.
  unfold selectStep, pickStep. rewrite len_map.
  destruct (tooClose (map index picked) item) eqn:T; cbn [negb andb];
    [reflexivity|].
  destruct (JsArray.len picked <? 5); [|reflexivity].
  rewrite (setAdd_fresh _ _ T), !map_app. reflexivity.
Qed.

Lemma fold_select_picks (l picked : list scored) :
  fold_left selectStep l (map sentence picked, map index picked) =
  (map sentence (fold_left pickStep l picked),
   map index (fold_left pickStep l picked)).
Proof.
  revert picked; induction l as [|x l IH]; intros picked; [reflexivity|].
  cbn [fold_left]. now rewrite selectStep_pickStep, IH.
Qed.

(** The two components of the loop state are the sentences and the indices
    of the accepted items. *)
Lemma greedySelect_picks (l : list scored) :
  greedySelect l = (map sentence (picks l), map index (picks l)).
Proof. exact (fold_select_picks l []). Qed.

Lemma pickStep_length (picked : list scored) (item : scored) :
  (List.length picked <= 5)%nat -> (List.length (pickStep picked item) <= 5)%nat.
Proof.
  intros H. unfold pickStep.
  destruct (negb (tooClose (map index picked) item)); cbn [andb]; trivial.
  destruct (JsArray.len picked <? 5) eqn:E; trivial.
  apply Z.ltb_lt in E. unfold JsArray.len in E. rewrite length_app. simpl. lia.
Qed.

Lemma fold_pick_length (l picked : list scored) :
  (List.length picked <= 5)%nat -> (List.length (fold_left pickStep l picked) <= 5)%nat.
Proof.
  revert picked; induction l as [|x l IH]; intros picked H; [exact H|].
  cbn [fold_left]. apply IH, pickStep_length, H.
Qed.

Lemma FOP_snoc {A : Type} (R : A -> A -> Prop) (l : list A) (y : A) :
  ForallOrdPairs R l -> Forall (fun x => R x y) l ->
  ForallOrdPairs R (l ++ [y]).
Proof.
  induction 1 as [|x l Hx Hl IH]; intros F; simpl.
  - constructor; constructor.
  - inversion F; subst. constructor.
    + apply Forall_app. split; [exact Hx | constructor; [assumption | constructor]].
    + apply IH. assumption.
Qed.

Lemma pickStep_apart (picked : list scored) (item : scored) :
  ForallOrdPairs apart (map index picked) ->
  ForallOrdPairs apart (map index (pickStep picked item)).
Proof.
  intros H. unfold pickStep.
  destruct (tooClose (map index picked) item) eqn:T; cbn [negb andb]; trivial.
  destruct (JsArray.len picked <? 5); trivial.
  rewrite map_app. apply FOP_snoc; trivial. now apply tooClose_spec.
Qed.

Lemma fold_pick_apart (l picked : list scored) :
  ForallOrdPairs apart (map index picked) ->
  ForallOrdPairs apart (map index (fold_left pickStep l picked)).
Proof.
  revert picked; induction l as [|x l IH]; intros picked H; [exact H|].
  cbn [fold_left]. apply IH, pickStep_apart, H.
Qed.

Lemma sublist_nil_l {A : Type} (l : list A) : sublist [] l.
Proof. induction l; constructor; assumption. Qed.

Lemma sublist_In {A : Type} (l1 l2 : list A) :
  sublist l1 l2 -> forall x, In x l1 -> In x l2.
Proof. induction 1; simpl; intuition. Qed.

Lemma fold_pick_sublist (l picked : list scored) :
  exists more,
    fold_left pickStep l picked = (picked ++ more)%list /\ sublist more l.
Proof.
  revert picked; induction l as [|x l IH]; intros picked.
  - exists []. split; [symmetry; apply app_nil_r | constructor].
  - cbn [fold_left]. destruct (IH (pickStep picked x)) as [more [E S]].
    unfold pickStep in E |- *.
    destruct (negb (tooClose (map index picked) x) && (JsArray.len picked <? 5)).
    + exists (x :: more). split; [now rewrite E, <- app_assoc | now constructor].
    + exists more. split; [exact E | now constructor].
Qed.

Lemma picks_sublist (l : list scored) : sublist (picks l) l.
Proof. destruct (fold_pick_sublist l []) as [more [E S]]. unfold picks. now rewrite E. Qed.

(** The head of the list is always accepted. *)
Lemma picks_head (x : scored) (l : list scored) :
  exists more, picks (x :: l) = x :: more.
Proof.
  unfold picks. cbn [fold_left].
  destruct (fold_pick_sublist l (pickStep [] x)) as [more [E _]].
  exists more. rewrite E. reflexivity.
Qed.

(** *** The sort *)

Lemma notAfter_alt (a b : scored) :
  notAfter a b <->
  score b < score a \/ (score a = score b /\ index a <= index b).
Proof.
  unfold notAfter, compareScored.
  destruct (Z.eqb_spec (score a) (score b)); cbn [negb]; lia.
Qed.

Lemma notAfter_total (a b : scored) : notAfter a b \/ notAfter b a.
Proof. rewrite !notAfter_alt. lia. Qed.

Lemma notAfter_trans (a b c : scored) :
  notAfter a b -> notAfter b c -> notAfter a c.
Proof. rewrite !notAfter_alt. lia. Qed.

Lemma insertScored_In (x : scored) (l : list scored) (z : scored) :
  In z (insertScored x l) <-> z = x \/ In z l.
Proof.
  induction l as [|y l IH]; simpl.
  - intuition.
  - destruct (compareScored x y <=? 0); simpl; [intuition|].
    rewrite IH. intuition.
Qed.

Lemma insertScored_sorted (x : scored) (l : list scored) :
  StronglySorted notAfter l -> StronglySorted notAfter (insertScored x l).
Proof.
  induction 1 as [|y l Hl IH Hy]; simpl.
  - constructor; constructor.
  - destruct (compareScored x y <=? 0) eqn:E.
    + apply Z.leb_le in E. constructor.
      * now constructor.
      * constructor; [exact E|].
        eapply Forall_impl; [|exact Hy]. intros z. now apply notAfter_trans.
    + apply Z.leb_gt in E. constructor; [exact IH|].
      apply Forall_forall. intros z Hz. apply insertScored_In in Hz.
      destruct Hz as [-> | Hz].
      * destruct (notAfter_total y x) as [H | H]; [exact H|].
        unfold notAfter in H. lia.
      * rewrite Forall_forall in Hy. now apply Hy.
Qed.

Lemma sortScored_sorted (l : list scored) :
  StronglySorted notAfter (sortScored l).
Proof.
  induction l; simpl; [constructor | now apply insertScored_sorted].
Qed.

Lemma sortScored_In (l : list scored) (z : scored) :
  In z (sortScored l) <-> In z l.
Proof.
  induction l as [|x l IH]; simpl; [tauto|].
  rewrite insertScored_In, IH. intuition.
Qed.

Lemma insertScored_length (x : scored) (l : list scored) :
  List.length (insertScored x l) = S (List.length l).
Proof.
  induction l as [|y l IH]; simpl; [reflexivity|].
  destruct (compareScored x y <=? 0); simpl; congruence.
Qed.

Lemma sortScored_length (l : list scored) :
  List.length (sortScored l) = List.length l.
Proof.
  induction l; simpl; [reflexivity|]. rewrite insertScored_length. congruence.
Qed.

Lemma sublist_sorted {A : Type} (R : A -> A -> Prop) (l1 l2 : list A) :
  sublist l1 l2 -> StronglySorted R l2 -> StronglySorted R l1.
Proof.
  induction 1 as [|x l1 l2 S IH|x l1 l2 S IH]; intros H;
    inversion H; subst; auto.
  constructor; auto.
  apply Forall_forall. intros z Hz.
  match goal with F : Forall _ l2 |- _ => rewrite Forall_forall in F; apply F end.
  eapply sublist_In; eassumption.
Qed.

(** Items whose indices differ and that are in sort order are strictly
    ordered. *)
Lemma sorted_apart_before (picked : list scored) :
  StronglySorted notAfter picked ->
  ForallOrdPairs apart (map index picked) ->
  StronglySorted before picked.
Proof.
  induction 1 as [|a l Hl IH Ha]; intros F; [constructor|].
  simpl in F. inversion F as [|? ? Fa Fl]; subst.
  constructor; [now apply IH|].
  apply Forall_forall. intros b Hb.
  rewrite Forall_forall in Ha, Fa.
  pose proof (Ha b Hb) as H1. apply notAfter_alt in H1.
  pose proof (Fa (index b) (in_map index l b Hb)) as H2.
  unfold apart in H2. unfold before. lia.
Qed.

(** *** The scored items *)

Lemma mapiFrom_In {A B : Type} (f : A -> Z -> B) (i : Z) (l : list A) (y : B) :
  In y (JsArray.mapiFrom f i l) ->
  exists k x, nth_error l k = Some x /\ y = f x (i + Z.of_nat k).
Proof.
  revert i; induction l as [|a l IH]; intros i; simpl; [tauto|].
  intros [<- | H].
  - exists 0%nat, a. split; [reflexivity | f_equal; lia].
  - destruct (IH _ H) as [k [x [Hk ->]]].
    exists (S k), x. split; [exact Hk | f_equal; lia].
Qed.

Lemma mapiFrom_nth {A B : Type} (f : A -> Z -> B) (i : Z) (l : list A)
  (k : nat) (x : A) :
  nth_error l k = Some x ->
  nth_error (JsArray.mapiFrom f i l) k = Some (f x (i + Z.of_nat k)).
Proof.
  revert i k; induction l as [|a l IH]; intros i k; destruct k; simpl;
    try discriminate.
  - intros [= ->]. do 2 f_equal. lia.
  - intros H. rewrite (IH (i + 1) k H). do 2 f_equal. lia.
Qed.

Lemma mapiFrom_length {A B : Type} (f : A -> Z -> B) (i : Z) (l : list A) :
  List.length (JsArray.mapiFrom f i l) = List.length l.
Proof. revert i; induction l; intros i; simpl; congruence. Qed.

(** Every item carries the sentence that stands at its index. *)
Lemma scoreAll_In (sentences : list string) (it : scored) :
  In it (scoreAll sentences) ->
  JsArray.get sentences (index it) = Some (sentence it)
  /\ it = scoreSentence (JsArray.len sentences) (sentence it) (index it).
Proof.
  intros H. apply mapiFrom_In in H. destruct H as [k [x [Hk ->]]].
  cbn [index sentence scoreSentence]. split; [|reflexivity].
  unfold JsArray.get. replace (0 + Z.of_nat k <? 0) with false
    by (symmetry; apply Z.ltb_ge; lia).
  now replace (Z.to_nat (0 + Z.of_nat k)) with k by lia.
Qed.

Lemma ranked_In (sentences : list string) (it : scored) :
  In it (ranked sentences) <-> In it (scoreAll sentences).
Proof. apply sortScored_In. Qed.

Lemma ranked_nonempty (sentences : list string) :
  sentences <> [] -> exists x l, ranked sentences = x :: l.
Proof.
  intros H. destruct (ranked sentences) as [|x l] eqn:E; [|now exists x, l].
  apply (f_equal (@List.length scored)) in E. unfold ranked in E.
  rewrite sortScored_length in E. unfold scoreAll, JsArray.mapi in E.
  rewrite mapiFrom_length in E. destruct sentences; [contradiction | discriminate].
Qed.

End SelectionFacts.

(** ** Key points: the properties of the selection *)

Module KeyPointsFacts.
Import JsString Summarizer Spec SelectionFacts.

Lemma filteriFrom_length {A : Type} (p : A -> Z -> bool) (i : Z) (l : list A) :
  (List.length (JsArray.filteriFrom p i l) <= List.length l)%nat.
Proof.
  revert i; induction l as [|x l IH]; intros i; simpl; [lia|].
  specialize (IH (i + 1)). destruct (p x i); simpl; lia.
Qed.

Lemma filterBoolean_length (l : list (option string)) :
  (List.length (filterBoolean l) <= List.length l)%nat.
Proof.
  induction l as [|[s|] l IH]; simpl; try lia.
  destruct (String.eqb s ""); simpl; lia.
Qed.

Lemma spreadFallback_length (sentences : list string) :
  (List.length (spreadFallback sentences) <= 5)%nat.
Proof.
  unfold spreadFallback.
  etransitivity; [apply filterBoolean_length|].
  rewrite length_map. unfold spreadIndices, JsArray.filteri.
  etransitivity; [apply filteriFrom_length|]. reflexivity.
Qed.

Lemma firstThree_length (sentences : list string) :
  (List.length (firstThree sentences) <= 3)%nat.
Proof.
  unfold firstThree, JsArray.slice.
  etransitivity; [apply firstn_le_length|].
  pose proof (len_nonneg sentences). unfold JsArray.rel. simpl. lia.
Qed.

Lemma greedy_length (scoredSentences : list scored) :
  (List.length (fst (greedySelect scoredSentences)) <= 5)%nat.
Proof.
  rewrite greedySelect_picks. cbn [fst]. rewrite length_map.
  apply fold_pick_length. simpl. lia.
Qed.

(** C4. The key-points summary selects at most five sentences: the loop
    stops accepting at five, the spread fallback has at most five indices,
    and the last fallback takes at most three sentences. *)
Theorem at_most_five_key_points (transcript : string)
  (scoredSentences : list scored) :
  let sentences := splitSentences transcript in
  (List.length (fst (greedySelect scoredSentences)) <= 5)%nat
  /\ (List.length (spreadFallback sentences) <= 5)%nat
  /\ (List.length (firstThree sentences) <= 5)%nat
  /\ (List.length (selectKeyPoints sentences) <= 5)%nat.
Proof.
  intros sentences. split; [apply greedy_length|].
  split; [apply spreadFallback_length|].
  split; [pose proof (firstThree_length sentences); lia|].
  unfold selectKeyPoints.
  destruct (JsArray.len (fst (greedySelect (sortScored (scoreAll sentences))))
            =? 0) eqn:E.
  - apply Z.eqb_eq, len_zero in E. rewrite E. simpl.
    apply spreadFallback_length.
  - apply greedy_length.
Qed.

Lemma FOP_nth {A : Type} (R : A -> A -> Prop) (l : list A) :
  ForallOrdPairs R l ->
  forall p q x y, (p < q)%nat ->
    nth_error l p = Some x -> nth_error l q = Some y -> R x y.
Proof.
  induction 1 as [|a l Ha Hl IH]; intros p q x y Hpq Hp Hq.
  - destruct p; discriminate.
  - destruct q as [|q]; [lia|]. simpl in Hq. destruct p as [|p].
    + injection Hp as <-. rewrite Forall_forall in Ha.
      apply Ha. eapply nth_error_In; eassumption.
    + simpl in Hp. apply (IH p q); trivial. lia.
Qed.

Lemma picked_sentences (sentences : list string) (picked : list scored) :
  (forall it, In it picked -> In it (scoreAll sentences)) ->
  map (JsArray.get sentences) (map index picked) =
  map Some (map sentence picked).
Proof.
  induction picked as [|a l IH]; intros H; [reflexivity|]. simpl.
  rewrite IH by (intros it Hit; apply H; now right).
  f_equal. apply scoreAll_In, H. now left.
Qed.

Lemma picks_ranked_In (sentences : list string) (it : scored) :
  In it (picks (ranked sentences)) -> In it (scoreAll sentences).
Proof.
  intros H. apply ranked_In.
  eapply sublist_In; [apply picks_sublist | exact H].
Qed.

(** C5, as stated, fails at the distance 3 itself: of four sentences of
    which none carries a phrase of the list, the loop selects the first and
    the fourth. *)
Lemma selected_not_beyond_three : ~ selected_beyond_three.
Proof.
  intros H. specialize (H plain 0%nat 1%nat 0 3).
  assert (E : snd (greedySelect (ranked (splitSentences plain))) = [0; 3])
    by reflexivity.
  cbv zeta in H. rewrite E in H.
  specialize (H ltac:(discriminate) eq_refl eq_refl). simpl in H. lia.
Qed.

(** The numbered list of the four sentences. *)
Example plain_key_points :
  generateKeyPointsSummary (JStr plain) (JStr "T") =
  "## Key Points" ++ nl ++ nl ++
  "1. Alpha beta gamma delta" ++ nl ++ "2. Nu xi omicron pi rho".
Proof. reflexivity. Qed.

(** C5, amended. After the loop, [usedSentenceIndices] holds the original
    indices of [selectedSentences], position by position, and any two of
    them differ by at least 3: the loop rejects a distance below 3 and
    accepts the distance 3.  When the loop has selected something, this is
    the selection that is rendered. *)
Theorem selected_indices_apart (transcript : string) :
  let sentences := splitSentences transcript in
  let selectedSentences := fst (greedySelect (ranked sentences)) in
  let usedSentenceIndices := snd (greedySelect (ranked sentences)) in
  map (JsArray.get sentences) usedSentenceIndices = map Some selectedSentences
  /\ (forall p q i j,
        p <> q ->
        nth_error usedSentenceIndices p = Some i ->
        nth_error usedSentenceIndices q = Some j ->
        3 <= Z.abs (i - j))
  /\ (selectedSentences = [] \/ selectKeyPoints sentences = selectedSentences).
Proof.
  intros sentences selectedSentences usedSentenceIndices.
  subst selectedSentences usedSentenceIndices.
  rewrite greedySelect_picks. cbn [fst snd]. split; [|split].
  - apply picked_sentences. intros it. apply picks_ranked_In.
  - assert (F : ForallOrdPairs apart (map index (picks (ranked sentences))))
      by (apply fold_pick_apart; constructor).
    intros p q i j Hpq Hp Hq.
    destruct (Nat.lt_total p q) as [L | [E | L]]; [| contradiction |].
    + exact (FOP_nth apart _ F p q i j L Hp Hq).
    + pose proof (FOP_nth apart _ F q p j i L Hq Hp) as H.
      unfold apart in H. lia.
  - unfold selectKeyPoints. fold (ranked sentences).
    rewrite greedySelect_picks. cbn [fst].
    destruct (map sentence (picks (ranked sentences))) eqn:E; [now left|].
    right. reflexivity.
Qed.

Lemma selected_indices_apart_witness :
  snd (greedySelect (ranked (splitSentences talk))) = [4; 0]
  /\ 3 <= Z.abs (4 - 0).
Proof.
  split; [reflexivity|].
  refine (proj1 (proj2 (selected_indices_apart talk)) 0%nat 1%nat 4 0 _ _ _).
  - discriminate.
  - reflexivity.
  - reflexivity.
Defined.

(** C10. When the length filter retains a sentence, the loop selects at
    least one: the head of the sorted list meets an empty set of used
    indices.  The selection of the loop is then the one that is rendered;
    neither fallback is taken. *)
Theorem greedy_selects_when_sentences_remain (transcript : string) :
  splitSentences transcript <> [] ->
  let sentences := splitSentences transcript in
  let selectedSentences := fst (greedySelect (ranked sentences)) in
  selectedSentences <> []
  /\ selectKeyPoints sentences = selectedSentences
  /\ keyPointsOfSentences sentences = renderKeyPoints selectedSentences
  /\ (forall title,
        generateKeyPointsSummary (JStr transcript) title =
        if invalidString title then invalidTitle
        else renderKeyPoints selectedSentences).
Proof.
  intros Hne sentences selectedSentences.
  assert (N : selectedSentences <> []).
  { subst selectedSentences. rewrite greedySelect_picks. cbn [fst].
    destruct (ranked_nonempty sentences Hne) as [x [l ->]].
    destruct (picks_head x l) as [more ->]. discriminate. }
  assert (S : selectKeyPoints sentences = selectedSentences).
  { unfold selectKeyPoints. fold (ranked sentences). fold selectedSentences.
    destruct (JsArray.len selectedSentences =? 0) eqn:E; [|reflexivity].
    apply Z.eqb_eq, len_zero in E. contradiction. }
  assert (K : keyPointsOfSentences sentences =
              renderKeyPoints selectedSentences).
  { unfold keyPointsOfSentences. rewrite S.
    destruct (JsArray.len selectedSentences =? 0) eqn:E; [|reflexivity].
    apply Z.eqb_eq, len_zero in E. contradiction. }
  split; [exact N|]. split; [exact S|]. split; [exact K|].
  intros title. unfold generateKeyPointsSummary.
  assert (T : invalidString (JStr transcript) = false).
  { destruct transcript; [exfalso; apply Hne; reflexivity | reflexivity]. }
  rewrite T. destruct (invalidString title); [reflexivity|].
  cbn [stringOf]. fold sentences.
  destruct (JsArray.len sentences =? 0) eqn:E; [|exact K].
  apply Z.eqb_eq, len_zero in E. contradiction.
Qed.

Lemma greedy_selects_when_sentences_remain_witness :
  keyPointsOfSentences (splitSentences talk) =
  renderKeyPoints (fst (greedySelect (ranked (splitSentences talk)))).
Proof.
  refine (proj1 (proj2 (proj2 (greedy_selects_when_sentences_remain talk _)))).
  vm_compute. discriminate.
Defined.

(** C8, as stated, fails: on the example transcript the loop selects the
    sentence of index 4 before the sentence of index 0. *)
Lemma selection_not_in_transcript_order : ~ selection_in_transcript_order.
Proof.
  intros H. specialize (H talk).
  assert (E : snd (greedySelect (ranked (splitSentences talk))) = [4; 0])
    by reflexivity.
  rewrite E in H. inversion H as [|? ? _ F]; subst.
  inversion F as [|? ? L _]; subst. lia.
Qed.

(** The numbered list of the example transcript, as it is rendered. *)
Example talk_key_points :
  generateKeyPointsSummary (JStr talk) (JStr "Talk") =
  "## Key Points" ++ nl ++ nl ++
  "1. Finally, remember the main idea" ++ nl ++ "2. This is important".
Proof. reflexivity. Qed.

(** C8, amended. The numbered list presents the selected sentences in the
    order of the sort: every selected sentence has a higher score than the
    ones listed after it, or the same score and a lower original index.
    The selected items are scored items of the transcript, and their
    sentences, in this order, are what is rendered. *)
Theorem selection_in_rank_order (transcript : string) :
  let sentences := splitSentences transcript in
  exists picked : list scored,
    greedySelect (ranked sentences) = (map sentence picked, map index picked)
    /\ (forall it, In it picked -> In it (scoreAll sentences))
    /\ StronglySorted before picked
    /\ (sentences = [] \/
        keyPointsOfSentences sentences = renderKeyPoints (map sentence picked)).
Proof.
  intros sentences. exists (picks (ranked sentences)).
  split; [apply greedySelect_picks|].
  split; [intros it; apply picks_ranked_In|].
  split.
  - apply sorted_apart_before.
    + eapply sublist_sorted; [apply picks_sublist | apply sortScored_sorted].
    + apply fold_pick_apart. constructor.
  - destruct sentences as [|s0 rest] eqn:E; [now left|]. right.
    assert (Hne : splitSentences transcript <> [])
      by (fold sentences; rewrite E; discriminate).
    pose proof (ranked_nonempty _ Hne) as [x [l R]].
    fold sentences in R. rewrite E in R.
    unfold keyPointsOfSentences, selectKeyPoints.
    fold (ranked (s0 :: rest)). rewrite greedySelect_picks. cbn [fst].
    rewrite R. destruct (picks_head x l) as [more ->].
    reflexivity.
Qed.

End KeyPointsFacts.

(** ** Key points: the score *)

Module ScoreFacts.
Import JsString Summarizer Spec JsStringFacts SelectionFacts.

Lemma ltQ_spec (a b : Q) : ltQ a b = true <-> (a < b)%Q.
Proof.
  unfold ltQ. rewrite negb_true_iff. split.
  - intros H. apply Qnot_le_lt. intros L.
    apply Qle_bool_iff in L. congruence.
  - intros H. destruct (Qle_bool b a) eqn:E; [|reflexivity].
    apply Qle_bool_iff in E. exfalso. exact (Qlt_not_le _ _ H E).
Qed.

Lemma ltQ_false (a b : Q) : ltQ a b = false <-> ~ (a < b)%Q.
Proof.
  rewrite <- ltQ_spec. destruct (ltQ a b); split; intros H;
    try reflexivity; try discriminate; try (intros X; discriminate).
  exfalso. now apply H.
Qed.

(** The thresholds of the ratio, on integers. *)
Lemma ratio_lt (i n a b : Z) :
  0 < n -> 0 < b ->
  (inject_Z i / inject_Z n < a # Z.to_pos b)%Q <-> i * b < a * n.
Proof.
  intros Hn Hb. destruct n as [|n|n]; try lia. destruct b as [|b|b]; try lia.
  unfold Qlt, Qdiv, Qmult, Qinv, inject_Z. simpl. lia.
Qed.

Lemma ratio_gt (i n a b : Z) :
  0 < n -> 0 < b ->
  (a # Z.to_pos b < inject_Z i / inject_Z n)%Q <-> a * n < i * b.
Proof.
  intros Hn Hb. destruct n as [|n|n]; try lia. destruct b as [|b|b]; try lia.
  unfold Qlt, Qdiv, Qmult, Qinv, inject_Z. simpl. lia.
Qed.

(** For the sentence [i] of [n]: opening is [5 i < n], closing [4 n < 5 i],
    middle [2 n < 5 i < 3 n]. *)
Lemma position_thresholds (i n : Z) :
  0 < n ->
  let r := (inject_Z i / inject_Z n)%Q in
  ((r < 0.2)%Q <-> 5 * i < n)
  /\ ((0.8 < r)%Q <-> 4 * n < 5 * i)
  /\ ((0.4 < r)%Q <-> 2 * n < 5 * i)
  /\ ((r < 0.6)%Q <-> 5 * i < 3 * n).
Proof.
  intros Hn r. subst r.
  pose proof (ratio_lt i n 2 10 Hn eq_refl) as H1.
  pose proof (ratio_gt i n 8 10 Hn eq_refl) as H2.
  pose proof (ratio_gt i n 4 10 Hn eq_refl) as H3.
  pose proof (ratio_lt i n 6 10 Hn eq_refl) as H4.
  change (2 # Z.to_pos 10) with 0.2%Q in H1.
  change (8 # Z.to_pos 10) with 0.8%Q in H2.
  change (4 # Z.to_pos 10) with 0.4%Q in H3.
  change (6 # Z.to_pos 10) with 0.6%Q in H4.
  rewrite H1, H2, H3, H4. lia.
Qed.

Lemma distinctb_NoDup (l : list string) : distinctb l = true -> NoDup l.
Proof.
  induction l as [|x l IH]; simpl; [constructor|].
  rewrite andb_true_iff, negb_true_iff. intros [H1 H2].
  constructor; [|now apply IH].
  intros Hin.
  assert (X : existsb (String.eqb x) l = true)
    by (apply existsb_exists; exists x; split; [exact Hin | apply String.eqb_refl]).
  congruence.
Qed.

Lemma keyPointIndicators_NoDup : NoDup keyPointIndicators.
Proof. apply distinctb_NoDup. vm_compute. reflexivity. Qed.

Lemma keyPointIndicators_lower : lowerAll keyPointIndicators = true.
Proof. vm_compute. reflexivity. Qed.

Lemma keyPointIndicators_count : List.length keyPointIndicators = 51%nat.
Proof. reflexivity. Qed.

(** The phrases that the filter of the source keeps. *)
Lemma matched_by_filter (s : string) :
  matchedPhrases s
    (filter (fun indicator => includes (toLowerCase s) indicator)
            keyPointIndicators).
Proof.
  split.
  - apply NoDup_filter, keyPointIndicators_NoDup.
  - intros p. rewrite filter_In. split; intros [Hin H]; split; trivial.
    + apply includes_lower; trivial.
      unfold lowerAll in *. pose proof keyPointIndicators_lower as L.
      unfold lowerAll in L. rewrite forallb_forall in L.
      now apply String.eqb_eq, L.
    + apply includes_lower; trivial.
      unfold lowerAll in *. pose proof keyPointIndicators_lower as L.
      unfold lowerAll in L. rewrite forallb_forall in L.
      now apply String.eqb_eq, L.
Qed.

Lemma positionBonus_computed (i n : Z) :
  let r := (inject_Z i / inject_Z n)%Q in
  positionBonus i n
    (if ltQ r 0.2 then 2
     else if ltQ 0.8 r then 2
     else if ltQ 0.4 r && ltQ r 0.6 then 1 else 0).
Proof.
  intros r. unfold positionBonus. fold r. cbv zeta.
  destruct (ltQ r 0.2) eqn:A.
  { left. split; [now apply ltQ_spec | reflexivity]. }
  apply ltQ_false in A. right.
  destruct (ltQ 0.8 r) eqn:B.
  { left. repeat split; trivial. now apply ltQ_spec. }
  apply ltQ_false in B. right.
  destruct (ltQ 0.4 r) eqn:C; destruct (ltQ r 0.6) eqn:D; cbn [andb].
  - left. apply ltQ_spec in C, D. repeat split; trivial.
  - right. apply ltQ_false in D. repeat split; trivial. tauto.
  - right. apply ltQ_false in C. repeat split; trivial. tauto.
  - right. apply ltQ_false in C. repeat split; trivial. tauto.
Qed.

Lemma lengthBonus_computed (s : string) :
  let wordCount := JsArray.len (split " " s) in
  lengthBonus s (if (wordCount >=? 8) && (wordCount <=? 25) then 1 else 0).
Proof.
  intros wordCount. unfold lengthBonus. fold wordCount. cbv zeta.
  rewrite Z.geb_leb.
  destruct (Z.leb_spec 8 wordCount), (Z.leb_spec wordCount 25); cbn [andb];
    [left | right | right | right]; split; trivial; lia.
Qed.

(** The score that the callback gives, as a sum of its three parts. *)
Lemma scoreSentence_sum (total : Z) (s : string) (i : Z) :
  let r := (inject_Z i / inject_Z total)%Q in
  let wordCount := JsArray.len (split " " s) in
  scoreSentence total s i =
  mkScored s
    (3 * JsArray.len (filter (fun indicator =>
                                includes (toLowerCase s) indicator)
                             keyPointIndicators)
     + (if ltQ r 0.2 then 2
        else if ltQ 0.8 r then 2
        else if ltQ 0.4 r && ltQ r 0.6 then 1 else 0)
     + (if (wordCount >=? 8) && (wordCount <=? 25) then 1 else 0))
    i.
Proof.
  intros r wordCount. unfold scoreSentence. fold r. fold wordCount. cbv zeta.
  f_equal.
  destruct (ltQ r 0.2), (ltQ 0.8 r), (ltQ 0.4 r && ltQ r 0.6),
    ((wordCount >=? 8) && (wordCount <=? 25)); lia.
Qed.

(** C6. The sentence at index [i] of the [n] retained sentences is scored
    3 for every distinct phrase of the keyword list that occurs in it up to
    case, plus the positional bonus (2 if [i/n < 0.2], else 2 if
    [i/n > 0.8], else 1 if [0.4 < i/n < 0.6], else 0), plus 1 if it has 8
    to 25 space-separated words. *)
Theorem score_formula (sentences : list string) (i : nat) (s : string) :
  nth_error sentences i = Some s ->
  exists (phrases : list string) (position words : Z),
    matchedPhrases s phrases
    /\ positionBonus (Z.of_nat i) (JsArray.len sentences) position
    /\ lengthBonus s words
    /\ nth_error (scoreAll sentences) i =
       Some (mkScored s (3 * JsArray.len phrases + position + words)
                      (Z.of_nat i)).
Proof.
  intros H.
  eexists. eexists. eexists.
  split; [apply matched_by_filter|].
  split; [apply positionBonus_computed|].
  split; [apply lengthBonus_computed|].
  unfold scoreAll, JsArray.mapi. rewrite (mapiFrom_nth _ 0 _ _ _ H).
  rewrite Z.add_0_l. now rewrite scoreSentence_sum.
Qed.

Lemma score_formula_witness :
  exists (phrases : list string) (position words : Z),
    matchedPhrases "Finally, remember the main idea" phrases
    /\ positionBonus 4 5 position
    /\ lengthBonus "Finally, remember the main idea" words
    /\ nth_error (scoreAll (splitSentences talk)) 4 =
       Some (mkScored "Finally, remember the main idea"
                      (3 * JsArray.len phrases + position + words) 4).
Proof.
  exact (score_formula (splitSentences talk) 4
                       "Finally, remember the main idea" eq_refl).
Defined.

(** The scores of the example transcript: 3 for "important" and 2 for the
    opening; nothing; 3 for "first"; 3 for "second"; 9 for "finally",
    "remember" and "main". *)
Example talk_scores :
  map score (scoreAll (splitSentences talk)) = [5; 0; 3; 3; 9].
Proof. reflexivity. Qed.

End ScoreFacts.

(** ** The detailed summary *)

Module DetailedFacts.
Import JsString Summarizer Spec SelectionFacts.

Lemma floorMul_frac (n a : Z) (b : positive) :
  floorMul n (a # b) = n * a / Z.pos b.
Proof. unfold floorMul, Qfloor, Qmult, inject_Z. simpl. reflexivity. Qed.

(** [Math.floor(n * 0.4)] is 40 percent of [n], rounded down; and so on. *)
Lemma floorMul_percent (n : Z) :
  floorMul n 0.4 = 40 * n / 100
  /\ floorMul n 0.3 = 30 * n / 100
  /\ floorMul n 0.2 = 20 * n / 100.
Proof.
  change 0.4%Q with (4 # 10)%Q. change 0.3%Q with (3 # 10)%Q.
  change 0.2%Q with (2 # 10)%Q. rewrite !floorMul_frac.
  replace (40 * n) with (10 * (n * 4)) by lia.
  replace (30 * n) with (10 * (n * 3)) by lia.
  replace (20 * n) with (10 * (n * 2)) by lia.
  change 100 with (10 * 10).
  rewrite !Z.div_mul_cancel_l by lia. auto.
Qed.

Lemma targetLengthOf_nonneg (n : Z) : 0 <= n -> 0 <= targetLengthOf n.
Proof.
  intros H. unfold targetLengthOf.
  destruct (floorMul_percent n) as [E4 [E3 E2]]. rewrite E4, E3, E2.
  assert (0 <= 40 * n / 100) by (apply Z.div_pos; lia).
  assert (0 <= 30 * n / 100) by (apply Z.div_pos; lia).
  assert (0 <= 20 * n / 100) by (apply Z.div_pos; lia).
  destruct (n <? 500); [lia|]. destruct (n <? 2000); lia.
Qed.

(** [arr.slice(0, k)] is the first [k] elements. *)
Lemma slice_prefix {A : Type} (k : Z) (l : list A) :
  0 <= k -> JsArray.slice 0 k l = firstn (Z.to_nat k) l.
Proof.
  intros Hk. unfold JsArray.slice, JsArray.rel.
  pose proof (len_nonneg l) as Hl.
  replace (0 <? 0) with false by reflexivity.
  replace (k <? 0) with false by (symmetry; apply Z.ltb_ge; lia).
  rewrite (Z.min_l 0) by lia. cbn [Z.to_nat skipn]. rewrite Z.sub_0_r.
  destruct (Z.le_gt_cases k (JsArray.len l)) as [L | G].
  - now rewrite Z.min_l by lia.
  - rewrite Z.min_r by lia. unfold JsArray.len in *.
    rewrite Nat2Z.id, firstn_all. symmetry. apply firstn_all2. lia.
Qed.

(** C9. The target is 40 percent of the number of space-separated words
    below 500 words, the smaller of 400 and 30 percent from 500 to 1999,
    and the smaller of 500 and 20 percent from 2000 on, each percentage
    rounded down.  The draft is replaced by its first [target] words, with
    "..." appended unless they end with a period, exactly when it is longer
    than [target * 5] characters; otherwise it is left as it is. *)
Theorem detailed_budget_and_truncation (transcript : string) :
  let count := JsArray.len (wordsOf transcript) in
  let target := targetLengthOf count in
  let draft := detailedDraft transcript in
  let cut := join " " (firstn (Z.to_nat target) (split " " draft)) in
  (count < 500 -> target = 40 * count / 100)
  /\ (500 <= count < 2000 -> target = Z.min 400 (30 * count / 100))
  /\ (2000 <= count -> target = Z.min 500 (20 * count / 100))
  /\ (target * 5 < len draft ->
      detailedBody transcript =
      (if endsWith cut "." then cut else cut ++ "..."))
  /\ (len draft <= target * 5 -> detailedBody transcript = draft).
Proof.
  intros count target draft cut.
  destruct (floorMul_percent count) as [E4 [E3 E2]].
  assert (T : 0 <= target)
    by (apply targetLengthOf_nonneg, len_nonneg).
  repeat split.
  - intros H. subst target. unfold targetLengthOf.
    apply Z.ltb_lt in H. now rewrite H.
  - intros [H1 H2]. subst target. unfold targetLengthOf.
    apply Z.ltb_ge in H1. apply Z.ltb_lt in H2. now rewrite H1, H2, E3.
  - intros H. subst target. unfold targetLengthOf.
    assert (H1 : (count <? 500) = false) by (apply Z.ltb_ge; lia).
    assert (H2 : (count <? 2000) = false) by (apply Z.ltb_ge; lia).
    now rewrite H1, H2, E2.
  - intros H. unfold detailedBody. fold count. fold target. fold draft.
    replace (len draft >? target * 5) with true
      by (symmetry; apply Z.gtb_lt; lia).
    unfold truncateWords. rewrite (slice_prefix target _ T). fold cut.
    now destruct (endsWith cut ".").
  - intros H. unfold detailedBody. fold count. fold target. fold draft.
    replace (len draft >? target * 5) with false; [reflexivity|].
    symmetry. rewrite Z.gtb_ltb. apply Z.ltb_ge. lia.
Qed.

Lemma detailed_budget_and_truncation_witness :
  targetLengthOf (JsArray.len (wordsOf talk)) = 7
  /\ detailedBody talk =
     "This is important. First, clarity matters. Second,..."
  /\ detailedBody sparse = detailedDraft sparse.
Proof.
  destruct (detailed_budget_and_truncation talk) as [H1 [_ [_ [H4 _]]]].
  destruct (detailed_budget_and_truncation sparse) as [_ [_ [_ [_ H5]]]].
  split; [|split].
  - apply H1. vm_compute. reflexivity.
  - rewrite H4; [reflexivity | vm_compute; reflexivity].
  - apply H5. vm_compute. discriminate.
Defined.

(** The draft of a transcript with one retained sentence repeats it for
    the beginning, the middle and the end. *)
Example sparse_detailed :
  generateDetailedSummary (JStr sparse) (JStr "T") =
  "## Summary" ++ nl ++ nl ++
  "Hello big world. Hello big world. Hello big world".
Proof. reflexivity. Qed.

(** The three bands of the target, at their borders. *)
Example targetLengthOf_bands :
  map targetLengthOf [1; 18; 499; 500; 1334; 1999; 2000; 2499; 2500; 9000] =
  [0; 7; 199; 150; 400; 400; 400; 499; 500; 500].
Proof. reflexivity. Qed.

End DetailedFacts.

(** ** The doubles agree with the rationals *)

Module DoublesFacts.
Import Doubles.

(** Every sentence position of up to 300 sentences. *)
Lemma ratios_agree :
  forallb (fun n => forallb (ratioAgrees (n + 1)) (upto (Z.to_nat (n + 1))))
          (upto 300) = true.
Proof. vm_compute. reflexivity. Qed.

(** Every word count and sentence count up to 3000. *)
Lemma products_agree : forallb productAgrees (upto 3001) = true.
Proof. vm_compute. reflexivity. Qed.

End DoublesFacts.


(** ** More facts about strings *)

Module JsTextFacts.
Import JsString JsText JsStringFacts.

Lemma length_append (a b : string) :
  String.length (a ++ b) = (String.length a + String.length b)%nat.
Proof. induction a; simpl; congruence. Qed.

Lemma forallChars_app (p : ascii -> bool) (a b : string) :
  forallChars p (a ++ b) = forallChars p a && forallChars p b.
Proof.
  induction a as [|c a IH]; simpl; [reflexivity|].
  now rewrite IH, andb_assoc.
Qed.

Lemma forallChars_impl (p q : ascii -> bool) (s : string) :
  (forall c, p c = true -> q c = true) ->
  forallChars p s = true -> forallChars q s = true.
Proof.
  intros H. induction s as [|c s IH]; simpl; [reflexivity|].
  rewrite !andb_true_iff. intros [Hc Hs]. auto.
Qed.

(** *** Trimming *)

Lemma trimStart_forall (p : ascii -> bool) (s : string) :
  forallChars p s = true -> forallChars p (trimStart s) = true.
Proof.
  induction s as [|c s IH]; simpl; [reflexivity|].
  rewrite andb_true_iff. intros [Hc Hs].
  destruct (isWhite c); [auto|]. simpl. now rewrite Hc, Hs.
Qed.

Lemma trimEnd_forall (p : ascii -> bool) (s : string) :
  forallChars p s = true -> forallChars p (trimEnd s) = true.
Proof.
  induction s as [|c s IH]; simpl; [reflexivity|].
  rewrite andb_true_iff. intros [Hc Hs]. specialize (IH Hs).
  destruct (trimEnd s) as [|d r].
  - destruct (isWhite c); simpl; [reflexivity | now rewrite Hc].
  - cbn [forallChars] in *. now rewrite Hc, IH.
Qed.

Lemma trim_forall (p : ascii -> bool) (s : string) :
  forallChars p s = true -> forallChars p (trim s) = true.
Proof. intros H. now apply trimEnd_forall, trimStart_forall. Qed.

Lemma trimStart_length (s : string) :
  (String.length (trimStart s) <= String.length s)%nat.
Proof.
  induction s as [|c s IH]; simpl; [lia|].
  destruct (isWhite c); simpl; lia.
Qed.

Lemma trimEnd_length (s : string) :
  (String.length (trimEnd s) <= String.length s)%nat.
Proof.
  induction s as [|c s IH]; simpl; [lia|].
  destruct (trimEnd s) as [|d r].
  - destruct (isWhite c); simpl; lia.
  - simpl in *. lia.
Qed.

Lemma trim_length (s : string) :
  (String.length (trim s) <= String.length s)%nat.
Proof.
  unfold trim. pose proof (trimEnd_length (trimStart s)).
  pose proof (trimStart_length s). lia.
Qed.

Lemma trimEnd_cons (c : ascii) (r : string) :
  isWhite c = false -> trimEnd (String c r) = String c (trimEnd r).
Proof. intros H. simpl. rewrite H. now destruct (trimEnd r). Qed.

Lemma trimEnd_idem (s : string) : trimEnd (trimEnd s) = trimEnd s.
Proof.
  induction s as [|c s IH]; [reflexivity|]. cbn [trimEnd].
  destruct (trimEnd s) as [|d r] eqn:E.
  - destruct (isWhite c) eqn:W; [reflexivity|]. cbn [trimEnd]. now rewrite W.
  - cbn [trimEnd]. cbn [trimEnd] in IH. fold trimEnd in *.
    change (trimEnd (String d r)) with
      (match trimEnd r with
       | EmptyString => if isWhite d then EmptyString else String d EmptyString
       | String _ _ as r' => String d r'
       end) in IH.
    rewrite IH. reflexivity.
Qed.

Lemma trimStart_head (s : string) :
  trimStart s = EmptyString \/
  exists c r, trimStart s = String c r /\ isWhite c = false.
Proof.
  induction s as [|c s IH]; simpl; [now left|].
  destruct (isWhite c) eqn:W; [exact IH|]. right. now exists c, s.
Qed.

Lemma trimStart_cons (c : ascii) (r : string) :
  isWhite c = false -> trimStart (String c r) = String c r.
Proof. intros H. simpl. now rewrite H. Qed.

(** Trimming twice is trimming once. *)
Lemma trim_idem (s : string) : trim (trim s) = trim s.
Proof.
  unfold trim. destruct (trimStart_head s) as [-> | [c [r [-> W]]]];
    [reflexivity|].
  rewrite (trimEnd_cons c r W), (trimStart_cons c _ W).
  rewrite <- (trimEnd_cons c r W). apply trimEnd_idem.
Qed.

Lemma trimEnd_app (a b : string) :
  forallChars notWhite a = true -> trimEnd (a ++ b) = a ++ trimEnd b.
Proof.
  induction a as [|c a IH]; [reflexivity|]. cbn [forallChars append].
  rewrite andb_true_iff. unfold notWhite at 1. rewrite negb_true_iff.
  intros [W H]. now rewrite (trimEnd_cons c _ W), (IH H).
Qed.

(** A text that begins with a character that is not white space keeps what
    stands before its trailing white space. *)
Lemma trim_app (c : ascii) (a b : string) :
  forallChars notWhite (String c a) = true ->
  trim (String c a ++ b) = String c a ++ trimEnd b.
Proof.
  intros H. unfold trim. cbn [append].
  assert (W : isWhite c = false).
  { cbn [forallChars] in H. apply andb_true_iff in H. destruct H as [H _].
    unfold notWhite in H. now apply negb_true_iff. }
  rewrite (trimStart_cons c _ W).
  change (String c (a ++ b)) with (String c a ++ b). now apply trimEnd_app.
Qed.

(** *** Prefixes and suffixes *)

Lemma take_drop (n : nat) (s : string) : take n s ++ drop n s = s.
Proof.
  revert s; induction n as [|n IH]; intros s; [reflexivity|].
  destruct s as [|c s]; [reflexivity|]. simpl. now rewrite IH.
Qed.

Lemma take_length (n : nat) (s : string) :
  (String.length (take n s) <= n)%nat.
Proof.
  revert s; induction n as [|n IH]; intros s; [simpl; lia|].
  destruct s as [|c s]; simpl; [lia|]. specialize (IH s). lia.
Qed.

Lemma take_app (a b : string) : take (String.length a) (a ++ b) = a.
Proof. induction a as [|c a IH]; simpl; [now destruct b | now rewrite IH]. Qed.

Lemma drop_app (a b : string) : drop (String.length a) (a ++ b) = b.
Proof. induction a as [|c a IH]; simpl; [reflexivity | exact IH]. Qed.

Lemma take_forall (p : ascii -> bool) (n : nat) (s : string) :
  forallChars p s = true -> forallChars p (take n s) = true.
Proof.
  revert s; induction n as [|n IH]; intros s H; [reflexivity|].
  destruct s as [|c s]; [reflexivity|]. cbn [take forallChars] in *.
  apply andb_true_iff in H. destruct H as [Hc Hs]. now rewrite Hc, IH.
Qed.

Lemma removeChars_forall (class : ascii -> bool) (s : string) :
  forallChars (fun c => negb (class c)) (removeChars class s) = true.
Proof.
  induction s as [|c s IH]; simpl; [reflexivity|].
  destruct (class c) eqn:E; [exact IH|]. simpl. now rewrite E, IH.
Qed.

Lemma removeChars_length (class : ascii -> bool) (s : string) :
  (String.length (removeChars class s) <= String.length s)%nat.
Proof.
  induction s as [|c s IH]; simpl; [lia|].
  destruct (class c); simpl; lia.
Qed.

Lemma replaceChar_length (c d : ascii) (s : string) :
  String.length (replaceChar c d s) = String.length s.
Proof. induction s; simpl; congruence. Qed.

End JsTextFacts.


(** ** Video identifiers: what [extractVideoId] returns *)

Module VideoIdFacts.
Import JsString JsText JsStringFacts JsTextFacts VideoId Spec.

Lemma isVideoId_length (s : string) :
  isVideoId s = true -> String.length s = 11%nat.
Proof.
  unfold isVideoId. rewrite andb_true_iff. intros [H _].
  now apply Nat.eqb_eq.
Qed.

Lemma isVideoId_chars (s : string) :
  isVideoId s = true -> forallChars isIdChar s = true.
Proof. unfold isVideoId. rewrite andb_true_iff. now intros [_ H]. Qed.

Lemma elevenIdChars_sound (s id : string) :
  elevenIdChars s = Some id ->
  isVideoId id = true /\ exists post, s = id ++ post.
Proof.
  unfold elevenIdChars. destruct (isVideoId (take 11 s)) eqn:E; [|discriminate].
  intros [= <-]. split; [exact E|]. exists (drop 11 s).
  exact (eq_sym (take_drop 11 s)).
Qed.

Lemma elevenIdChars_hit (id rest : string) :
  isVideoId id = true -> elevenIdChars (id ++ rest) = Some id.
Proof.
  intros H. unfold elevenIdChars.
  rewrite <- (isVideoId_length id H), take_app. now rewrite H.
Qed.

Lemma afterMarker_sound (marker s id : string) :
  afterMarker marker s = Some id ->
  isVideoId id = true /\ exists post, s = marker ++ id ++ post.
Proof.
  unfold afterMarker. destruct (startsWith s marker) eqn:E; [|discriminate].
  apply startsWith_spec in E. destruct E as [x ->]. rewrite drop_app.
  intros H. apply elevenIdChars_sound in H. destruct H as [V [post ->]].
  split; [exact V | now exists post].
Qed.

Lemma afterMarker_hit (marker id rest : string) :
  isVideoId id = true -> afterMarker marker (marker ++ id ++ rest) = Some id.
Proof.
  intros H. unfold afterMarker.
  replace (startsWith (marker ++ id ++ rest) marker) with true
    by (symmetry; apply startsWith_spec; now exists (id ++ rest)).
  rewrite drop_app. now apply elevenIdChars_hit.
Qed.

Lemma matchAt_sound (markers : list string) (s id : string) :
  matchAt markers s = Some id ->
  isVideoId id = true /\
  exists marker post, In marker markers /\ s = marker ++ id ++ post.
Proof.
  induction markers as [|m ms IH]; simpl; [discriminate|].
  destruct (afterMarker m s) as [x|] eqn:E.
  - intros [= ->]. apply afterMarker_sound in E. destruct E as [V [post E]].
    split; [exact V|]. exists m, post. auto.
  - intros H. destruct (IH H) as [V [marker [post [Hin E']]]].
    split; [exact V|]. exists marker, post. auto.
Qed.

Lemma search_sound (markers : list string) (s id : string) :
  search markers s = Some id ->
  isVideoId id = true /\
  exists marker pre post,
    In marker markers /\ s = pre ++ marker ++ id ++ post.
Proof.
  induction s as [|c s IH]; cbn [search].
  - destruct (matchAt markers "") as [x|] eqn:E; [|discriminate].
    intros [= ->]. apply matchAt_sound in E.
    destruct E as [V [marker [post [Hin E]]]].
    split; [exact V|]. now exists marker, "", post.
  - destruct (matchAt markers (String c s)) as [x|] eqn:E.
    + intros [= ->]. apply matchAt_sound in E.
      destruct E as [V [marker [post [Hin E]]]].
      split; [exact V|]. now exists marker, "", post.
    + intros H. destruct (IH H) as [V [marker [pre [post [Hin ->]]]]].
      split; [exact V|]. now exists marker, (String c pre), post.
Qed.

Lemma firstMatch_sound (patterns : list (list string)) (s id : string) :
  firstMatch patterns s = Some id ->
  isVideoId id = true /\
  exists markers marker pre post,
    In markers patterns /\ In marker markers
    /\ s = pre ++ marker ++ id ++ post.
Proof.
  induction patterns as [|ms rest IH]; simpl; [discriminate|].
  destruct (search ms s) as [x|] eqn:E.
  - intros [= ->]. apply search_sound in E.
    destruct E as [V [marker [pre [post [Hin E]]]]].
    split; [exact V|]. exists ms, marker, pre, post. auto.
  - intros H. destruct (IH H) as [V [ms' [marker [pre [post [H1 [H2 E']]]]]]].
    split; [exact V|]. exists ms', marker, pre, post. auto.
Qed.

(** X11. Whatever [extractVideoId] returns has the form of a video identifier,
    so that [validateYouTubeVideoId] accepts it. *)
Theorem extractVideoId_valid (input id : string) :
  extractVideoId input = Ok id ->
  isVideoId id = true /\ validateYouTubeVideoId (JStr id) = None.
Proof.
  intros H.
  assert (V : isVideoId id = true).
  { unfold extractVideoId in H. destruct (isVideoId (trim input)) eqn:E.
    - now injection H as <-.
    - destruct (firstMatch urlPatterns (trim input)) as [x|] eqn:F;
        [|discriminate].
      injection H as <-. now apply firstMatch_sound in F. }
  split; [exact V|]. unfold validateYouTubeVideoId.
  assert (N : id <> "") by (intros ->; discriminate V).
  unfold invalidString. cbn [truthy isString stringOf].
  destruct (String.eqb_spec id ""); [contradiction|]. cbn. now rewrite V.
Qed.

Lemma extractVideoId_valid_witness :
  isVideoId "dQw4w9WgXcQ" = true
  /\ validateYouTubeVideoId (JStr "dQw4w9WgXcQ") = None.
Proof.
  exact (extractVideoId_valid "https://youtu.be/dQw4w9WgXcQ?t=42"
                              "dQw4w9WgXcQ" eq_refl).
Defined.

(** X12. The identifier that is returned is the trimmed input itself, or it
    stands in the trimmed input directly behind one of the six markers of
    the URL patterns. *)
Theorem extractVideoId_origin (input id : string) :
  extractVideoId input = Ok id ->
  trim input = id \/
  exists marker, In marker (standardMarkers ++ shortsMarkers)%list
                 /\ Contains (trim input) (marker ++ id).
Proof.
  unfold extractVideoId. destruct (isVideoId (trim input)) eqn:E.
  - intros [= <-]. now left.
  - destruct (firstMatch urlPatterns (trim input)) as [x|] eqn:F;
      [|discriminate].
    intros [= <-]. right. apply firstMatch_sound in F.
    destruct F as [_ [ms [marker [pre [post [H1 [H2 ->]]]]]]].
    exists marker. split.
    + apply in_or_app. destruct H1 as [<- | [<- | []]]; auto.
    + exists pre, post. now rewrite append_assoc.
Qed.

Lemma extractVideoId_origin_witness :
  trim "https://youtu.be/dQw4w9WgXcQ?t=42" = "dQw4w9WgXcQ" \/
  exists marker, In marker (standardMarkers ++ shortsMarkers)%list
                 /\ Contains (trim "https://youtu.be/dQw4w9WgXcQ?t=42")
                              (marker ++ "dQw4w9WgXcQ").
Proof.
  exact (extractVideoId_origin "https://youtu.be/dQw4w9WgXcQ?t=42"
                               "dQw4w9WgXcQ" eq_refl).
Defined.

(** An input that is an identifier once trimmed is returned trimmed. *)
Lemma extractVideoId_direct (input : string) :
  isVideoId (trim input) = true -> extractVideoId input = Ok (trim input).
Proof. intros H. unfold extractVideoId. now rewrite H. Qed.

(** *** Inputs that are URLs *)

Lemma isVideoId_long (s : string) :
  (11 < String.length s)%nat -> isVideoId s = false.
Proof.
  intros H. unfold isVideoId.
  destruct (Nat.eqb_spec (String.length s) 11); [lia | reflexivity].
Qed.

Lemma isVideoId_short (s : string) :
  (String.length s < 11)%nat -> isVideoId s = false.
Proof.
  intros H. unfold isVideoId.
  destruct (Nat.eqb_spec (String.length s) 11); [lia | reflexivity].
Qed.

Lemma isIdChar_notWhite (c : ascii) : isIdChar c = true -> notWhite c = true.
Proof.
  destruct c as [[] [] [] [] [] [] [] []]; vm_compute; congruence.
Qed.

Lemma isIdChar_notSlash (c : ascii) : isIdChar c = true -> notSlash c = true.
Proof.
  destruct c as [[] [] [] [] [] [] [] []]; vm_compute; congruence.
Qed.

Lemma trim_prefix (a b : string) :
  a <> "" -> forallChars notWhite a = true ->
  trim (a ++ b) = a ++ trimEnd b.
Proof. destruct a as [|c a]; [congruence|]. intros _. apply trim_app. Qed.

Lemma search_cons_miss (markers : list string) (c : ascii) (s : string) :
  matchAt markers (String c s) = None ->
  search markers (String c s) = search markers s.
Proof. intros H. cbn [search]. now rewrite H. Qed.

Lemma search_hit (markers : list string) (s id : string) :
  matchAt markers s = Some id -> search markers s = Some id.
Proof. intros H. destruct s; cbn [search]; now rewrite H. Qed.

Lemma afterMarker_miss (marker s : string) :
  startsWith s marker = false -> afterMarker marker s = None.
Proof. intros H. unfold afterMarker. now rewrite H. Qed.

(** A trimmed input of one of the forms is not an identifier, and the
    standard pattern finds the identifier behind the marker. *)
Lemma standard_form_found (form id rest : string) :
  In form standardForms -> isVideoId id = true ->
  isVideoId (form ++ id ++ rest) = false
  /\ search standardMarkers (form ++ id ++ rest) = Some id.
Proof.
  intros Hin V. split.
  - apply isVideoId_long. rewrite length_append.
    simpl in Hin. decompose [or] Hin; subst; simpl; try lia; contradiction.
  - simpl in Hin. decompose [or] Hin; subst; try contradiction;
      cbn [append];
      repeat (rewrite search_cons_miss by reflexivity);
      apply search_hit; cbn [matchAt standardMarkers];
      repeat (rewrite afterMarker_miss by reflexivity).
    + pose proof (afterMarker_hit "youtube.com/watch?v=" id rest V) as A.
      cbn [append] in A. now rewrite A.
    + pose proof (afterMarker_hit "youtu.be/" id rest V) as A.
      cbn [append] in A. now rewrite A.
    + pose proof (afterMarker_hit "m.youtube.com/watch?v=" id rest V) as A.
      cbn [append] in A. now rewrite A.
    + pose proof (afterMarker_hit "youtube.com/embed/" id rest V) as A.
      cbn [append] in A. now rewrite A.
    + pose proof (afterMarker_hit "youtube.com/v/" id rest V) as A.
      cbn [append] in A. now rewrite A.
Qed.

(** X13. A URL of one of the standard forms gives the eleven characters behind
    the marker, whatever follows them: further identifier characters are
    cut off, and so is a query or a fragment. *)
Theorem extractVideoId_standard_url (form id rest : string) :
  In form standardForms -> isVideoId id = true ->
  extractVideoId (form ++ id ++ rest) = Ok id.
Proof.
  intros Hin V. unfold extractVideoId.
  assert (T : trim (form ++ id ++ rest) = form ++ id ++ trimEnd rest).
  { rewrite <- !append_assoc. apply trim_prefix.
    - simpl in Hin. decompose [or] Hin; subst; try contradiction; discriminate.
    - rewrite forallChars_app, andb_true_iff. split.
      + simpl in Hin. decompose [or] Hin; subst; try contradiction;
          reflexivity.
      + eapply forallChars_impl; [apply isIdChar_notWhite|].
        now apply isVideoId_chars. }
  rewrite T. destruct (standard_form_found form id (trimEnd rest) Hin V)
    as [N F].
  rewrite N. cbn [firstMatch urlPatterns]. now rewrite F.
Qed.

Lemma extractVideoId_standard_url_witness :
  extractVideoId ("https://youtu.be/" ++ "dQw4w9WgXcQ" ++ "XYZ?t=42  ") =
  Ok "dQw4w9WgXcQ".
Proof.
  apply extractVideoId_standard_url; [right; left; reflexivity | reflexivity].
Defined.

(** A text without a slash holds no marker. *)
Lemma startsWith_forall (p : ascii -> bool) (s m : string) :
  startsWith s m = true -> forallChars p s = true -> forallChars p m = true.
Proof.
  intros H F. apply startsWith_spec in H. destruct H as [post ->].
  rewrite forallChars_app in F. now apply andb_true_iff in F.
Qed.

Lemma matchAt_no_slash (markers : list string) (s : string) :
  forallb (fun m => negb (forallChars notSlash m)) markers = true ->
  forallChars notSlash s = true -> matchAt markers s = None.
Proof.
  intros M F. induction markers as [|m ms IH]; [reflexivity|].
  cbn [forallb] in M. apply andb_true_iff in M. destruct M as [Hm Hms].
  cbn [matchAt]. rewrite afterMarker_miss; [now apply IH|].
  destruct (startsWith s m) eqn:E; [|reflexivity].
  rewrite (startsWith_forall notSlash s m E F) in Hm. discriminate.
Qed.

Lemma search_no_slash (markers : list string) (s : string) :
  forallb (fun m => negb (forallChars notSlash m)) markers = true ->
  forallChars notSlash s = true -> search markers s = None.
Proof.
  intros M. induction s as [|c s IH]; intros F; cbn [search].
  - now rewrite (matchAt_no_slash markers "" M F).
  - rewrite (matchAt_no_slash markers _ M F). apply IH.
    cbn [forallChars] in F. now apply andb_true_iff in F.
Qed.

(** X14. A shorts URL gives its identifier when no slash follows it.  The
    shorts pattern is consulted only after the standard pattern has found
    nothing in the whole input. *)
Theorem extractVideoId_shorts_url (id rest : string) :
  isVideoId id = true -> forallChars notSlash rest = true ->
  extractVideoId (shortsForm ++ id ++ rest) = Ok id.
Proof.
  intros V S. unfold extractVideoId.
  assert (T : trim (shortsForm ++ id ++ rest)
              = shortsForm ++ id ++ trimEnd rest).
  { rewrite <- !append_assoc. apply trim_prefix; [discriminate|].
    rewrite forallChars_app, andb_true_iff. split; [reflexivity|].
    eapply forallChars_impl; [apply isIdChar_notWhite|].
    now apply isVideoId_chars. }
  rewrite T.
  rewrite isVideoId_long
    by (rewrite length_append; unfold shortsForm; simpl; lia).
  assert (F : forallChars notSlash (id ++ trimEnd rest) = true).
  { rewrite forallChars_app, andb_true_iff. split.
    - eapply forallChars_impl; [apply isIdChar_notSlash|].
      now apply isVideoId_chars.
    - now apply trimEnd_forall. }
  cbn [firstMatch urlPatterns].
  assert (M : search standardMarkers (shortsForm ++ id ++ trimEnd rest) = None).
  { unfold shortsForm. cbn [append].
    repeat (rewrite search_cons_miss by reflexivity).
    now apply search_no_slash. }
  rewrite M. unfold shortsForm. cbn [append].
  repeat (rewrite search_cons_miss by reflexivity).
  rewrite (search_hit shortsMarkers _ id); [reflexivity|].
  cbn [matchAt shortsMarkers].
  pose proof (afterMarker_hit "youtube.com/shorts/" id (trimEnd rest) V) as A.
  cbn [append] in A. now rewrite A.
Qed.

Lemma extractVideoId_shorts_url_witness :
  extractVideoId (shortsForm ++ "dQw4w9WgXcQ" ++ "?feature=share") =
  Ok "dQw4w9WgXcQ".
Proof. apply extractVideoId_shorts_url; reflexivity. Defined.

(** With a standard marker behind it, a shorts URL gives the identifier
    behind that marker. *)
Example shorts_url_overruled :
  extractVideoId
    "https://www.youtube.com/shorts/dQw4w9WgXcQ?ref=youtu.be/AAAAAAAAAAA" =
  Ok "AAAAAAAAAAA".
Proof. reflexivity. Qed.

(** *** Inputs that are rejected *)

Lemma firstMatch_length (patterns : list (list string)) (s id : string) :
  firstMatch patterns s = Some id -> (11 <= String.length s)%nat.
Proof.
  intros H. apply firstMatch_sound in H.
  destruct H as [V [ms [marker [pre [post [_ [_ ->]]]]]]].
  rewrite !length_append, (isVideoId_length id V). lia.
Qed.

(** X15. An input of fewer than eleven characters, once trimmed, is rejected
    with the message that quotes the input as it was given. *)
Theorem extractVideoId_short_input (input : string) :
  (String.length (trim input) < 11)%nat ->
  extractVideoId input = Throw (invalidInput input).
Proof.
  intros H. unfold extractVideoId. rewrite (isVideoId_short _ H).
  destruct (firstMatch urlPatterns (trim input)) as [id|] eqn:F;
    [|reflexivity].
  apply firstMatch_length in F. lia.
Qed.

Lemma extractVideoId_short_input_witness :
  extractVideoId "  youtu.be  " = Throw (invalidInput "  youtu.be  ").
Proof. apply extractVideoId_short_input. vm_compute. lia. Defined.

(** *** Titles *)

Lemma dropLeadingBracket_length (s : string) :
  (String.length (dropLeadingBracket s) <= String.length s)%nat.
Proof. destruct s as [|c s]; simpl; [lia|]. destruct (Ascii.eqb c "["); simpl; lia. Qed.

Lemma dropTrailingBracket_length (s : string) :
  (String.length (dropTrailingBracket s) <= String.length s)%nat.
Proof.
  induction s as [|c s IH]; [simpl; lia|]. cbn [dropTrailingBracket].
  destruct s as [|d r].
  - destruct (Ascii.eqb c "]"); simpl; lia.
  - cbn [String.length] in *. lia.
Qed.

(** X16. A sanitized title holds none of the characters that a file name may
    not hold, has no white space at either end, and is not longer than the
    title. *)
Theorem sanitizeTitle_safe (title : string) :
  forallChars (fun c => negb (isForbidden c)) (sanitizeTitle title) = true
  /\ trim (sanitizeTitle title) = sanitizeTitle title
  /\ (String.length (sanitizeTitle title) <= String.length title)%nat.
Proof.
  unfold sanitizeTitle. split; [|split].
  - apply trim_forall, removeChars_forall.
  - apply trim_idem.
  - etransitivity; [apply trim_length|].
    etransitivity; [apply removeChars_length|].
    rewrite replaceChar_length.
    etransitivity; [apply dropTrailingBracket_length|].
    apply dropLeadingBracket_length.
Qed.

(** Only one bracket is taken from each end, and only before trimming. *)
Example sanitizeTitle_brackets :
  sanitizeTitle "[[Talk: part 1/2]] " = "[Talk- part 12]]".
Proof. reflexivity. Qed.

End VideoIdFacts.


(** ** The summarizer: sentences, scores and outcomes *)

Module SummarizerFacts.
Import JsString JsText Summarizer Spec.
Import JsStringFacts JsTextFacts ExecuteFacts GuidedFacts SelectionFacts.
Import ScoreFacts.

(** *** The retained sentences *)

Lemma splitRunsAcc_forall (sep : ascii -> bool) (s cur : string)
  (inrun : bool) (piece : string) :
  forallChars (fun c => negb (sep c)) cur = true ->
  In piece (splitRunsAcc sep s cur inrun) ->
  forallChars (fun c => negb (sep c)) piece = true.
Proof.
  revert cur inrun; induction s as [|c s IH]; intros cur inrun Hc; simpl.
  - intros [<- | []]. exact Hc.
  - destruct (sep c) eqn:E.
    + destruct inrun; simpl.
      * apply IH. reflexivity.
      * intros [<- | H]; [exact Hc|]. revert H. apply IH. reflexivity.
    + apply IH. rewrite forallChars_app, Hc. simpl. now rewrite E.
Qed.

Lemma splitRunsAcc_length (sep : ascii -> bool) (s cur : string)
  (inrun : bool) (piece : string) :
  In piece (splitRunsAcc sep s cur inrun) ->
  (String.length piece <= String.length cur + String.length s)%nat.
Proof.
  revert cur inrun; induction s as [|c s IH]; intros cur inrun; simpl.
  - intros [<- | []]. lia.
  - destruct (sep c).
    + destruct inrun; simpl.
      * intros H. apply IH in H. simpl in H. lia.
      * intros [<- | H]; [lia|]. apply IH in H. simpl in H. lia.
    + intros H. apply IH in H. rewrite length_append in H. simpl in H. lia.
Qed.

(** X1. Every retained sentence has more than 10 and fewer than 200
    characters, holds none of the sentence terminators, and has no white
    space at either end. *)
Theorem splitSentences_invariant (transcript sentence : string) :
  In sentence (splitSentences transcript) ->
  10 < len sentence < 200
  /\ forallChars (fun c => negb (isTerminal c)) sentence = true
  /\ trim sentence = sentence.
Proof.
  unfold splitSentences. rewrite filter_In, in_map_iff.
  intros [[piece [<- Hp]] Hl].
  apply andb_true_iff in Hl. destruct Hl as [H1 H2].
  apply Z.gtb_lt in H1. apply Z.ltb_lt in H2.
  split; [lia|]. split; [|apply trim_idem].
  apply trim_forall. eapply splitRunsAcc_forall; [|exact Hp]. reflexivity.
Qed.

Lemma splitSentences_invariant_witness :
  10 < len "Finally, remember the main idea" < 200
  /\ forallChars (fun c => negb (isTerminal c))
                 "Finally, remember the main idea" = true
  /\ trim "Finally, remember the main idea"
     = "Finally, remember the main idea".
Proof.
  apply (splitSentences_invariant talk). vm_compute. tauto.
Defined.

(** X4. A transcript of at most ten characters has no sentence to offer: the
    key-points summary is the message that says so, and [execute] returns
    it under the type "key_points". *)
Theorem short_transcript_has_no_sentences (t : string) (title : jsval) :
  usableTranscript t -> (String.length t <= 10)%nat ->
  invalidString title = false ->
  splitSentences t = []
  /\ execute (mkArgs (JStr t) title JUndefined) =
     Returned (mkResult noSentences "key_points").
Proof.
  intros U L T.
  assert (E : splitSentences t = []).
  { destruct (splitSentences t) as [|s0 l] eqn:E; [reflexivity|].
    assert (Hin : In s0 (splitSentences t)) by (rewrite E; now left).
    unfold splitSentences in Hin. rewrite filter_In, in_map_iff in Hin.
    destruct Hin as [[piece [<- Hp]] Hl].
    apply andb_true_iff in Hl. destruct Hl as [H1 _].
    apply Z.gtb_lt in H1. unfold len in H1.
    pose proof (trim_length piece).
    apply splitRunsAcc_length in Hp. simpl in Hp. lia. }
  split; [exact E|].
  rewrite (execute_usable t title JUndefined U). cbn [truthy].
  unfold generateKeyPointsSummary.
  rewrite (invalidString_JStr t (usable_nonempty t U)), T.
  cbn [stringOf]. now rewrite E.
Qed.

Lemma short_transcript_has_no_sentences_witness :
  execute (mkArgs (JStr "Hi there.") (JStr "Greeting") JUndefined) =
  Returned (mkResult noSentences "key_points").
Proof.
  refine (proj2 (short_transcript_has_no_sentences
                   "Hi there." (JStr "Greeting") _ _ _)).
  - split; [vm_compute; discriminate|].
    intros H. apply includes_spec in H. vm_compute in H. discriminate.
  - vm_compute. lia.
  - reflexivity.
Defined.

(** *** The scores *)

Lemma filter_length_le {A : Type} (f : A -> bool) (l : list A) :
  (List.length (filter f l) <= List.length l)%nat.
Proof. induction l as [|x l IH]; simpl; [lia|]. destruct (f x); simpl; lia. Qed.

(** X2. A score is three times the number of matched phrases plus at most 3,
    and lies between 0 and 156. *)
Theorem score_bounds (total : Z) (sentence : string) (index : Z) :
  let matches :=
    JsArray.len (filter (fun indicator =>
                           includes (toLowerCase sentence) indicator)
                        keyPointIndicators) in
  let score := score (scoreSentence total sentence index) in
  3 * matches <= score <= 3 * matches + 3 /\ 0 <= score <= 156.
Proof.
  intros matches sc. subst sc. rewrite scoreSentence_sum. cbn [score].
  cbv zeta. fold matches.
  assert (M : 0 <= matches <= 51).
  { subst matches. unfold JsArray.len.
    pose proof (filter_length_le
                  (fun indicator => includes (toLowerCase sentence) indicator)
                  keyPointIndicators) as H.
    rewrite keyPointIndicators_count in H. lia. }
  repeat match goal with
         | |- context [if ?b then _ else _] => destruct b
         end; lia.
Qed.

(** *** The selection is maximal *)

Lemma fold_pick_covers (l picked : list scored) (it : scored) :
  In it l ->
  let final := fold_left pickStep l picked in
  (5 <= List.length final)%nat
  \/ exists j, In j (map index final) /\ Z.abs (index it - j) < 3.
Proof.
  revert picked; induction l as [|x l IH]; intros picked Hin; [contradiction|].
  cbn [fold_left]. destruct Hin as [-> | Hin]; [|now apply IH].
  cbv zeta. destruct (fold_pick_sublist l (pickStep picked it)) as [more [E _]].
  rewrite E. unfold pickStep.
  destruct (tooClose (map index picked) it) eqn:T; cbn [negb andb].
  - right. unfold tooClose in T. apply existsb_exists in T.
    destruct T as [j [Hj D]]. apply Z.ltb_lt in D. exists j. split; [|exact D].
    rewrite map_app. apply in_or_app. now left.
  - destruct (JsArray.len picked <? 5) eqn:F.
    + right. exists (index it). split; [|rewrite Z.sub_diag; simpl; lia].
      rewrite !map_app. apply in_or_app. left. apply in_or_app. right.
      now left.
    + left. apply Z.ltb_ge in F. unfold JsArray.len in F.
      rewrite length_app. lia.
Qed.

(** X3. After the loop no retained sentence could still be added: five
    sentences are selected, or every sentence index is less than 3 away
    from a selected index. *)
Theorem selection_is_maximal (transcript : string) (i : Z) :
  let sentences := splitSentences transcript in
  let usedSentenceIndices := snd (greedySelect (ranked sentences)) in
  0 <= i < JsArray.len sentences ->
  List.length usedSentenceIndices = 5%nat
  \/ exists j, In j usedSentenceIndices /\ Z.abs (i - j) < 3.
Proof.
  intros sentences used Hi. subst used.
  rewrite greedySelect_picks. cbn [snd].
  destruct (nth_error sentences (Z.to_nat i)) as [s0|] eqn:N.
  2:{ apply nth_error_None in N. unfold JsArray.len in Hi. lia. }
  pose proof (mapiFrom_nth (scoreSentence (JsArray.len sentences)) 0 _ _ _ N)
    as M.
  apply nth_error_In in M. fold (JsArray.mapi (scoreSentence (JsArray.len sentences)) sentences) in M.
  fold (scoreAll sentences) in M. apply ranked_In in M.
  pose proof (fold_pick_covers (ranked sentences) [] _ M) as C.
  cbv zeta in C. fold (picks (ranked sentences)) in C.
  cbn [index scoreSentence] in C.
  replace (0 + Z.of_nat (Z.to_nat i)) with i in C by lia.
  destruct C as [C | C]; [left | right; exact C].
  rewrite length_map.
  pose proof (fold_pick_length (ranked sentences) [] ltac:(simpl; lia)) as L.
  fold (picks (ranked sentences)) in L. lia.
Qed.

Lemma selection_is_maximal_witness :
  List.length (snd (greedySelect (ranked (splitSentences plain)))) = 5%nat
  \/ exists j, In j (snd (greedySelect (ranked (splitSentences plain))))
               /\ Z.abs (2 - j) < 3.
Proof.
  apply (selection_is_maximal plain 2). vm_compute. split; [discriminate | reflexivity].
Defined.

End SummarizerFacts.


(** ** The summarizer: what [execute] returns *)

Module OutcomeFacts.
Import JsString JsText Summarizer Spec.
Import JsStringFacts JsTextFacts ExecuteFacts GuidedFacts SelectionFacts.
Import DetailedFacts.

(** X5. The title is tested for being a non-empty string and is not used
    otherwise: two valid titles give the same result. *)
Theorem title_is_only_checked (transcript title1 title2 guidance : jsval) :
  invalidString title1 = false -> invalidString title2 = false ->
  execute (mkArgs transcript title1 guidance) =
  execute (mkArgs transcript title2 guidance).
Proof.
  intros H1 H2. unfold execute. cbn [Summarizer.transcript video_title
                                      summary_guidance].
  destruct (transcriptUnavailable transcript) as [[|]|]; try reflexivity.
  unfold generateGuidedSummary, generateKeyPointsSummary,
    generateDetailedSummary.
  now rewrite H1, H2.
Qed.

Lemma title_is_only_checked_witness :
  execute (mkArgs (JStr talk) (JStr "Talk") (JStr "in depth")) =
  execute (mkArgs (JStr talk) (JStr "Another title") (JStr "in depth")).
Proof. apply title_is_only_checked; reflexivity. Defined.

Lemma append_nonempty_l (a b : string) : a <> "" -> a ++ b <> "".
Proof. destruct a; [congruence | discriminate]. Qed.

Lemma append_nonempty_r (a b : string) : b <> "" -> a ++ b <> "".
Proof. destruct a; [simpl; congruence | discriminate]. Qed.

Lemma keyPoints_nonempty (transcript videoTitle : jsval) :
  generateKeyPointsSummary transcript videoTitle <> "".
Proof.
  unfold generateKeyPointsSummary.
  destruct (invalidString transcript); [discriminate|].
  destruct (invalidString videoTitle); [discriminate|].
  cbv zeta. destruct (JsArray.len _ =? 0); [discriminate|].
  unfold keyPointsOfSentences. cbv zeta.
  destruct (JsArray.len _ =? 0).
  - apply append_nonempty_r. discriminate.
  - unfold renderKeyPoints. discriminate.
Qed.

Lemma detailed_nonempty (transcript videoTitle : jsval) :
  generateDetailedSummary transcript videoTitle <> "".
Proof.
  unfold generateDetailedSummary.
  destruct (invalidString transcript); [discriminate|].
  destruct (invalidString videoTitle); discriminate.
Qed.

Lemma guided_nonempty (transcript videoTitle guidance : jsval) :
  generateGuidedSummary transcript videoTitle guidance <> "".
Proof.
  unfold generateGuidedSummary.
  destruct (invalidString transcript); [discriminate|].
  destruct (invalidString videoTitle); [discriminate|].
  destruct (invalidString guidance); [discriminate|].
  cbv zeta.
  repeat match goal with
         | |- context [if ?b then _ else _] => destruct b
         end;
    try apply keyPoints_nonempty; try apply detailed_nonempty.
  discriminate.
Qed.

(** X6. [execute] throws exactly for a transcript that is truthy and not a
    string.  Otherwise it returns a record with a non-empty summary whose
    type is "unavailable", "guided" or "key_points": the type "detailed"
    is never produced. *)
Theorem execute_outcomes (args : Args) :
  match execute args with
  | Thrown message =>
      truthy (transcript args) = true /\ isString (transcript args) = false
      /\ message =
         "Transcript summarizer failed: transcript.trim is not a function"
  | Returned result =>
      (truthy (transcript args) = false \/ isString (transcript args) = true)
      /\ In (summary_type result) ["unavailable"; "guided"; "key_points"]
      /\ summary result <> ""
  end.
Proof.
  destruct args as [tr title g]. unfold execute, transcriptUnavailable.
  cbn [transcript video_title summary_guidance].
  destruct (truthy tr) eqn:T; cbn [negb].
  - destruct tr as [| |b|z|t]; try discriminate T; try (repeat split; reflexivity).
    destruct (String.eqb (trim t) "" || includes t marker).
    + repeat split; [now right | simpl; auto | discriminate].
    + destruct (truthy g); cbn [summary summary_type].
      * repeat split; [now right | simpl; auto | apply guided_nonempty].
      * repeat split; [now right | simpl; auto | apply keyPoints_nonempty].
  - repeat split; [now left | simpl; auto | discriminate].
Qed.

(** X7. A guidance that matches no group is echoed in a heading of its own, in
    front of the detailed summary with its heading. *)
Theorem guided_fallback_heading (t title g : string) :
  t <> "" -> title <> "" -> g <> "" ->
  ~ matchesGroup g group1 -> ~ matchesGroup g group2 ->
  ~ matchesGroup g group3 ->
  generateGuidedSummary (JStr t) (JStr title) (JStr g) =
  "## Summary (Based on: " ++ g ++ ")" ++ nl ++ nl
  ++ "## Summary" ++ nl ++ nl ++ detailedBody t.
Proof.
  intros Ht Hti Hg M1 M2 M3. rewrite (guided_chain _ _ g Hg).
  rewrite (invalidString_JStr t Ht), (invalidString_JStr title Hti).
  assert (N : forall grp, lowerAll grp = true -> ~ matchesGroup g grp ->
                          test g grp = false).
  { intros grp L M. destruct (test g grp) eqn:E; [|reflexivity].
    exfalso. apply M. now apply test_matches. }
  rewrite (N group1 eq_refl M1), (N group2 eq_refl M2), (N group3 eq_refl M3).
  unfold generateDetailedSummary.
  rewrite (invalidString_JStr t Ht), (invalidString_JStr title Hti).
  reflexivity.
Qed.

Lemma guided_fallback_heading_witness :
  generateGuidedSummary (JStr sparse) (JStr "T") (JStr "for children") =
  "## Summary (Based on: for children)" ++ nl ++ nl
  ++ "## Summary" ++ nl ++ nl ++ detailedBody sparse.
Proof.
  apply (guided_fallback_heading sparse "T" "for children");
    try discriminate; apply test_not_matches; reflexivity.
Defined.

(** *** The budget of the detailed summary *)

(** X8. The target is never negative, never above 500 and never above 40
    percent of the word count. *)
Theorem targetLength_bounds (count : Z) :
  0 <= count ->
  0 <= targetLengthOf count <= 500
  /\ 5 * targetLengthOf count <= 2 * count.
Proof.
  intros H. unfold targetLengthOf.
  destruct (floorMul_percent count) as [E4 [E3 E2]]. rewrite E4, E3, E2.
  destruct (Z.ltb_spec count 500);
    [Z.to_euclidean_division_equations; lia|].
  destruct (Z.ltb_spec count 2000);
    Z.to_euclidean_division_equations; lia.
Qed.

Lemma targetLength_bounds_witness :
  0 <= targetLengthOf 1999 <= 500 /\ 5 * targetLengthOf 1999 <= 2 * 1999.
Proof. apply targetLength_bounds. lia. Defined.

(** The target drops at 500 words: 499 words are given 199 words, 500
    words are given 150. *)
Example targetLength_not_monotone :
  targetLengthOf 499 = 199 /\ targetLengthOf 500 = 150.
Proof. split; reflexivity. Qed.

Lemma countChar_app (c : ascii) (a b : string) :
  countChar c (a ++ b) = (countChar c a + countChar c b)%nat.
Proof.
  induction a as [|x a IH]; simpl; [reflexivity|].
  destruct (Ascii.eqb x c); simpl; now rewrite IH.
Qed.

Lemma splitAcc_length (sep : ascii) (s cur : string) :
  List.length (splitAcc sep s cur) = S (countChar sep s).
Proof.
  revert cur; induction s as [|c s IH]; intros cur; simpl; [reflexivity|].
  destruct (Ascii.eqb c sep); simpl; now rewrite IH.
Qed.

Lemma splitAcc_pieces (sep : ascii) (s cur : string) :
  countChar sep cur = O ->
  Forall (fun piece => countChar sep piece = O) (splitAcc sep s cur).
Proof.
  revert cur; induction s as [|c s IH]; intros cur H; simpl.
  - constructor; [exact H | constructor].
  - destruct (Ascii.eqb c sep) eqn:E.
    + constructor; [exact H | now apply IH].
    + apply IH. rewrite countChar_app, H. simpl. now rewrite E.
Qed.

Lemma Forall_prefix {A : Type} (P : A -> Prop) (k : nat) (l : list A) :
  Forall P l -> Forall P (firstn k l).
Proof.
  intros H. revert k; induction H as [|x l Hx Hl IH]; intros k.
  - rewrite firstn_nil. constructor.
  - destruct k; simpl; constructor; auto.
Qed.

Lemma countChar_join (sep : ascii) (l : list string) :
  Forall (fun piece => countChar sep piece = O) l ->
  countChar sep (join (String sep EmptyString) l) = pred (List.length l).
Proof.
  induction 1 as [|x l Hx Hl IH]; [reflexivity|].
  destruct l as [|y l]; [exact Hx|].
  change (join (String sep "") (x :: y :: l))
    with (x ++ String sep "" ++ join (String sep "") (y :: l)).
  rewrite !countChar_app, Hx, IH. simpl. now rewrite Ascii.eqb_refl.
Qed.

(** The words of a text that was joined from pieces without a space are
    these pieces. *)
Lemma words_of_prefix (k : nat) (s tail : string) :
  countChar " " tail = O ->
  (List.length (split " " (join " " (firstn k (split " " s)) ++ tail))
   <= Nat.max k 1)%nat.
Proof.
  intros Ht. unfold split at 1. rewrite splitAcc_length, countChar_app, Ht.
  rewrite countChar_join.
  - pose proof (firstn_le_length k (split " " s)). lia.
  - apply Forall_prefix. unfold split. now apply splitAcc_pieces.
Qed.

(** X9. The body of the detailed summary keeps to one of its two budgets: it
    has at most [target * 5] characters, or it has at most [target] words
    (one word when the target is 0). *)
Theorem detailed_body_budget (transcript : string) :
  let target := targetLengthOf (JsArray.len (wordsOf transcript)) in
  let body := detailedBody transcript in
  len body <= target * 5
  \/ JsArray.len (split " " body) <= Z.max target 1.
Proof.
  intros target body. subst body. unfold detailedBody. fold target.
  assert (T : 0 <= target) by (apply targetLengthOf_nonneg, len_nonneg).
  destruct (Z.gtb_spec (len (detailedDraft transcript)) (target * 5));
    [|left; lia].
  right. unfold truncateWords. rewrite (slice_prefix target _ T).
  set (cut := join " " (firstn (Z.to_nat target)
                               (split " " (detailedDraft transcript)))).
  unfold JsArray.len.
  destruct (endsWith cut ".") eqn:E; cbn [negb].
  - pose proof (words_of_prefix (Z.to_nat target)
                  (detailedDraft transcript) "" eq_refl) as W.
    fold cut in W. rewrite append_nil_r in W. lia.
  - pose proof (words_of_prefix (Z.to_nat target)
                  (detailedDraft transcript) "..." eq_refl) as W.
    fold cut in W. lia.
Qed.

(** *** The spread fallback *)

Lemma floorMul_quarters (n : Z) :
  floorMul n 0.25 = n / 4 /\ floorMul n 0.5 = n / 2
  /\ floorMul n 0.75 = 3 * n / 4.
Proof.
  change 0.25%Q with (25 # 100)%Q. change 0.5%Q with (5 # 10)%Q.
  change 0.75%Q with (75 # 100)%Q. rewrite !floorMul_frac.
  repeat split; Z.to_euclidean_division_equations; lia.
Qed.

(** X10. For at least one sentence the indices of the spread fallback ascend
    strictly, lie within the sentences, and hold the first and the last
    index. *)
Theorem spreadIndices_shape (n : Z) :
  1 <= n ->
  StronglySorted Z.lt (spreadIndices n)
  /\ Forall (fun i => 0 <= i < n) (spreadIndices n)
  /\ In 0 (spreadIndices n) /\ In (n - 1) (spreadIndices n).
Proof.
  intros H. unfold spreadIndices.
  destruct (floorMul_quarters n) as [-> [-> ->]].
  assert (B : 0 <= n / 4 <= n / 2 /\ n / 2 <= 3 * n / 4 <= n - 1)
    by (Z.to_euclidean_division_equations; lia).
  assert (E : n = (n - 1) + 1) by lia.
  set (b := n / 4) in *. set (c := n / 2) in *. set (d := 3 * n / 4) in *.
  set (e := n - 1) in *. rewrite E. clearbody b c d e. clear E.
  unfold JsArray.filteri, JsArray.indexOf.
  cbn [JsArray.filteriFrom JsArray.indexOfFrom Z.add Pos.add Pos.succ].
  repeat match goal with
         | |- context [?x =? ?y] =>
             first [is_var x | is_var y];
             destruct (Z.eqb_spec x y); try lia
         end;
    subst; simpl;
    (split; [|split; [|split]]);
    try (repeat (constructor; try lia); fail);
    auto 10.
Qed.

Lemma spreadIndices_shape_witness :
  StronglySorted Z.lt (spreadIndices 8)
  /\ Forall (fun i => 0 <= i < 8) (spreadIndices 8)
  /\ In 0 (spreadIndices 8) /\ In (8 - 1) (spreadIndices 8).
Proof. apply spreadIndices_shape. lia. Defined.

End OutcomeFacts.


(** ** The processor: files and summaries *)

Module ProcessorFacts.
Import JsString JsText Summarizer Spec VideoId.
Import JsStringFacts JsTextFacts ExecuteFacts.

Lemma marker_holds_phrase (t : string) :
  Contains t marker -> Contains t "No transcript available".
Proof.
  intros [pre [post ->]]. exists pre, (" for this video" ++ post).
  reflexivity.
Qed.

(** X17. The summary that the processor puts into the note.  Without a
    transcript, or with the phrase "No transcript available" in it, there is
    none.  A transcript of white space gets the message of the summarizer
    for an unavailable transcript as its summary.  Every other transcript
    gets the guided summary when a non-empty guidance is given and the key
    points otherwise; the type of the summary is dropped. *)
Theorem summaryOf_cases (videoInfo : Processor.VideoInfo)
  (guidance : option string) :
  let t := Processor.transcript videoInfo in
  let title := JStr (Processor.title videoInfo) in
  (t = "" \/ Contains t "No transcript available" ->
   Processor.summaryOf videoInfo guidance = Ok None)
  /\ (t <> "" -> ~ Contains t "No transcript available" -> trim t = "" ->
      Processor.summaryOf videoInfo guidance = Ok (Some unavailableMessage))
  /\ (~ Contains t "No transcript available" -> trim t <> "" ->
      Processor.summaryOf videoInfo guidance =
      Ok (Some (if Processor.given guidance
                then generateGuidedSummary (JStr t) title
                       (Processor.optional guidance)
                else generateKeyPointsSummary (JStr t) title))).
Proof.
  intros t title. unfold Processor.summaryOf. fold t. split; [|split].
  - intros [-> | H]; [reflexivity|].
    apply includes_spec in H. rewrite H. now rewrite andb_false_r.
  - intros Hne Hp Hb.
    destruct (String.eqb_spec t ""); [contradiction|].
    destruct (includes t "No transcript available") eqn:E;
      [apply includes_spec in E; contradiction|].
    cbn [negb andb]. unfold execute, transcriptUnavailable.
    cbn [Summarizer.transcript]. rewrite (truthy_JStr t Hne), Hb.
    reflexivity.
  - intros Hp Hb.
    assert (U : usableTranscript t).
    { split; [exact Hb|]. intros M. now apply Hp, marker_holds_phrase. }
    destruct (String.eqb_spec t "");
      [exfalso; now apply (usable_nonempty t U)|].
    destruct (includes t "No transcript available") eqn:E;
      [apply includes_spec in E; contradiction|].
    cbn [negb andb]. rewrite (execute_usable t _ _ U).
    destruct guidance as [g|]; cbn [Processor.optional Processor.given truthy];
      [|reflexivity].
    now destruct (String.eqb g "").
Qed.

Lemma summaryOf_cases_witness :
  Processor.summaryOf (Processor.mkVideoInfo "dQw4w9WgXcQ" "Talk" "   " "")
                      None
  = Ok (Some unavailableMessage).
Proof.
  refine (proj1 (proj2 (summaryOf_cases
                          (Processor.mkVideoInfo "dQw4w9WgXcQ" "Talk" "   " "")
                          None)) _ _ _).
  - discriminate.
  - intros H. apply includes_spec in H. vm_compute in H. discriminate.
  - reflexivity.
Defined.

(** The summarizer does not throw on the transcript of the processor,
    which is a string. *)
Lemma summaryOf_returns (videoInfo : Processor.VideoInfo)
  (guidance : option string) :
  exists summary, Processor.summaryOf videoInfo guidance = Ok summary.
Proof.
  unfold Processor.summaryOf. destruct (_ && _); [|now exists None].
  unfold Summarizer.execute, transcriptUnavailable.
  cbn [Summarizer.transcript].
  destruct (truthy (JStr (Processor.transcript videoInfo))); cbn [negb];
    [|eexists; reflexivity].
  destruct (_ || _); [eexists; reflexivity|].
  destruct (truthy _); eexists; reflexivity.
Qed.

(** *** The files *)

Section Environment.

Variable youtubeTranscript : string -> outcome Processor.VideoInfo.
Variable today : string.
Variable pathJoin : string -> string -> string.

Local Abbreviation execute :=
  (Processor.execute youtubeTranscript today pathJoin).
Local Abbreviation process :=
  (Processor.process youtubeTranscript today pathJoin).

Lemma saveMarkdownFile_keeps (content filename directory : string)
  (fs : Processor.files) (p c : string) :
  fs p = Some c ->
  snd (Processor.saveMarkdownFile pathJoin content filename directory fs) p
  = Some c.
Proof.
  intros H. unfold Processor.saveMarkdownFile, Processor.present.
  destruct (fs (pathJoin directory filename)) as [old|] eqn:E; [exact H|].
  cbn [snd]. unfold Processor.writeFile.
  destruct (String.eqb_spec p (pathJoin directory filename)); [|exact H].
  congruence.
Qed.

Lemma saveMarkdownFile_ok (content filename directory : string)
  (fs : Processor.files) :
  fst (Processor.saveMarkdownFile pathJoin content filename directory fs)
  = Ok (pathJoin directory filename).
Proof.
  unfold Processor.saveMarkdownFile.
  now destruct (Processor.present fs (pathJoin directory filename)).
Qed.

Lemma process_keeps (args : Processor.Args) (fs : Processor.files)
  (p c : string) :
  fs p = Some c -> snd (process args fs) p = Some c.
Proof.
  intros H. unfold Processor.process.
  destruct (extractVideoId _) as [videoId|]; [|exact H].
  destruct (youtubeTranscript videoId) as [videoInfo|]; [|exact H].
  destruct (Processor.summaryOf _ _) as [summary|]; [|exact H].
  cbv zeta. destruct (Processor.given _); [|exact H].
  destruct (_ && _); [exact H|].
  pose proof (saveMarkdownFile_keeps
                (Processor.generateObsidianMarkdown
                   (Processor.mkNoteData
                      (Processor.title videoInfo)
                      (Processor.video_id videoInfo)
                      ("https://www.youtube.com/watch?v=" ++ videoId)
                      (Processor.user_comments args) summary
                      (Processor.description videoInfo) today))
                (sanitizeTitle (Processor.title videoInfo) ++ ".md")
                (Processor.textOf (Processor.output_location args))
                fs p c H) as K.
  destruct (Processor.saveMarkdownFile _ _ _ _ _) as [[v|m] fs']; exact K.
Qed.

(** X18. Whatever the arguments and whatever the outcome, a file that exists
    before the call has the same content after it. *)
Theorem execute_keeps_existing_files (args : Processor.Args)
  (fs : Processor.files) (path content : string) :
  fs path = Some content -> snd (execute args fs) path = Some content.
Proof.
  intros H. unfold Processor.execute.
  pose proof (process_keeps args fs path content H) as K.
  destruct (process args fs) as [[v|m] fs']; exact K.
Qed.

(** X19. With [overwrite_file] set and the note already there, the call
    reports that it has saved the note and leaves the files as they
    are. *)
Theorem execute_overwrite_changes_nothing (args : Processor.Args)
  (fs : Processor.files) (videoId directory old : string)
  (videoInfo : Processor.VideoInfo) :
  extractVideoId (Processor.youtube_input args) = Ok videoId ->
  youtubeTranscript videoId = Ok videoInfo ->
  Processor.output_location args = Some directory -> directory <> "" ->
  Processor.overwrite_file args = Some true ->
  let path :=
    pathJoin directory (sanitizeTitle (Processor.title videoInfo) ++ ".md") in
  fs path = Some old ->
  execute args fs =
  (Ok ("Successfully saved Obsidian markdown file to: " ++ path), fs).
Proof.
  intros Hid Hinfo Hloc Hdir Hover path Hold.
  unfold Processor.execute, Processor.process. rewrite Hid, Hinfo.
  destruct (summaryOf_returns videoInfo (Processor.summary_guidance args))
    as [summary S].
  rewrite S. cbv zeta. rewrite Hloc, Hover.
  cbn [Processor.given Processor.textOf Processor.isTrue negb].
  destruct (String.eqb_spec directory ""); [contradiction|]. cbn [negb].
  rewrite andb_false_r. unfold Processor.saveMarkdownFile, Processor.present.
  fold path. now rewrite Hold.
Qed.

(** X20. With a directory given and no note there yet, the note is written:
    afterwards the path holds the generated note, and the call reports the
    path. *)
Theorem execute_writes_new_note (args : Processor.Args)
  (fs : Processor.files) (videoId directory : string)
  (videoInfo : Processor.VideoInfo) :
  extractVideoId (Processor.youtube_input args) = Ok videoId ->
  youtubeTranscript videoId = Ok videoInfo ->
  Processor.output_location args = Some directory -> directory <> "" ->
  let path :=
    pathJoin directory (sanitizeTitle (Processor.title videoInfo) ++ ".md") in
  fs path = None ->
  exists summary,
    Processor.summaryOf videoInfo (Processor.summary_guidance args)
    = Ok summary
    /\ fst (execute args fs) =
       Ok ("Successfully saved Obsidian markdown file to: " ++ path)
    /\ snd (execute args fs) path =
       Some (Processor.generateObsidianMarkdown
               (Processor.mkNoteData
                  (Processor.title videoInfo) (Processor.video_id videoInfo)
                  ("https://www.youtube.com/watch?v=" ++ videoId)
                  (Processor.user_comments args) summary
                  (Processor.description videoInfo) today)).
Proof.
  intros Hid Hinfo Hloc Hdir path Hnew.
  destruct (summaryOf_returns videoInfo (Processor.summary_guidance args))
    as [summary S].
  exists summary. split; [exact S|].
  unfold Processor.execute, Processor.process. rewrite Hid, Hinfo, S.
  cbv zeta. rewrite Hloc.
  cbn [Processor.given Processor.textOf].
  destruct (String.eqb_spec directory ""); [contradiction|]. cbn [negb].
  unfold Processor.saveMarkdownFile, Processor.present. fold path.
  rewrite Hnew. cbn [andb fst snd]. split; [reflexivity|].
  unfold Processor.writeFile. now rewrite String.eqb_refl.
Qed.

End Environment.

Lemma execute_keeps_existing_files_witness :
  snd (Processor.execute Processor.talkTool "1 May 2025" Processor.slashJoin
         (Processor.talkArgs (Some true)) Processor.oneNote)
      "notes/Talk.md"
  = Some "my own text".
Proof.
  apply execute_keeps_existing_files. reflexivity.
Defined.

Lemma execute_overwrite_changes_nothing_witness :
  Processor.execute Processor.talkTool "1 May 2025" Processor.slashJoin
    (Processor.talkArgs (Some true)) Processor.oneNote
  = (Ok "Successfully saved Obsidian markdown file to: notes/Talk.md",
     Processor.oneNote).
Proof.
  apply (execute_overwrite_changes_nothing
           Processor.talkTool "1 May 2025" Processor.slashJoin
           (Processor.talkArgs (Some true)) Processor.oneNote
           "dQw4w9WgXcQ" "notes" "my own text"
           (Processor.mkVideoInfo "dQw4w9WgXcQ" "Talk" talk "A talk."));
    try reflexivity.
  discriminate.
Defined.

Lemma execute_writes_new_note_witness :
  exists summary,
    Processor.summaryOf
      (Processor.mkVideoInfo "dQw4w9WgXcQ" "Talk" talk "A talk.") None
    = Ok summary
    /\ fst (Processor.execute Processor.talkTool "1 May 2025"
              Processor.slashJoin (Processor.talkArgs None)
              (fun _ => None)) =
       Ok "Successfully saved Obsidian markdown file to: notes/Talk.md"
    /\ snd (Processor.execute Processor.talkTool "1 May 2025"
              Processor.slashJoin (Processor.talkArgs None)
              (fun _ => None)) "notes/Talk.md" =
       Some (Processor.generateObsidianMarkdown
               (Processor.mkNoteData "Talk" "dQw4w9WgXcQ"
                  "https://www.youtube.com/watch?v=dQw4w9WgXcQ"
                  None summary "A talk." "1 May 2025")).
Proof.
  apply (execute_writes_new_note
           Processor.talkTool "1 May 2025" Processor.slashJoin
           (Processor.talkArgs None) (fun _ => None)
           "dQw4w9WgXcQ" "notes"
           (Processor.mkVideoInfo "dQw4w9WgXcQ" "Talk" talk "A talk."));
    try reflexivity.
  discriminate.
Defined.

(** The note of the example talk, as it is written. *)
Example talk_note :
  snd (Processor.execute Processor.talkTool "1 May 2025"
         Processor.slashJoin (Processor.talkArgs None) (fun _ => None))
      "notes/Talk.md"
  = Some ("---" ++ nl ++ "title: " ++ dq ++ "Talk" ++ dq ++ nl
          ++ "video_id: " ++ dq ++ "dQw4w9WgXcQ" ++ dq ++ nl
          ++ "video_url: " ++ dq
          ++ "https://www.youtube.com/watch?v=dQw4w9WgXcQ" ++ dq ++ nl
          ++ "processed_date: " ++ dq ++ "1 May 2025" ++ dq ++ nl
          ++ "tags: [" ++ dq ++ "youtube" ++ dq ++ ", " ++ dq ++ "video"
          ++ dq ++ "]" ++ nl ++ "---" ++ nl ++ nl
          ++ "# Summary" ++ nl ++ nl ++ "## Key Points" ++ nl ++ nl
          ++ "1. Finally, remember the main idea" ++ nl
          ++ "2. This is important" ++ nl ++ nl
          ++ "# Video Description" ++ nl ++ nl ++ "A talk.").
Proof. reflexivity. Qed.

End ProcessorFacts.


(** ** The title sanitizer of the build: what a title becomes *)

Module SanitizeFacts.
Import JsString JsText VideoId Sanitize JsStringFacts JsTextFacts.

Lemma removeChars_keeps (p class : ascii -> bool) (s : string) :
  forallChars p s = true -> forallChars p (removeChars class s) = true.
Proof.
  induction s as [|c s IH]; simpl; [reflexivity|].
  rewrite andb_true_iff. intros [Hc Hs].
  destruct (class c); [auto|]. simpl. now rewrite Hc, IH.
Qed.

Lemma collapseWhite_keeps (p : ascii -> bool) (s : string) (inrun : bool) :
  p " "%char = true ->
  forallChars p s = true -> forallChars p (collapseWhite s inrun) = true.
Proof.
  intros Hsp. revert inrun; induction s as [|c s IH]; intros inrun; simpl;
    [reflexivity|].
  rewrite andb_true_iff. intros [Hc Hs].
  destruct (isWhite c).
  - destruct inrun; [auto|]. simpl. now rewrite Hsp, IH.
  - simpl. now rewrite Hc, IH.
Qed.

Lemma collapseWhite_length (s : string) (inrun : bool) :
  (String.length (collapseWhite s inrun) <= String.length s)%nat.
Proof.
  revert inrun; induction s as [|c s IH]; intros inrun; simpl; [lia|].
  destruct (isWhite c).
  - destruct inrun; simpl; [specialize (IH true) | specialize (IH true)]; lia.
  - simpl. specialize (IH false). lia.
Qed.

Lemma collapseWhite_spaced (s : string) (inrun : bool) :
  singleSpaced inrun (collapseWhite s inrun) = true.
Proof.
  revert inrun; induction s as [|c s IH]; intros inrun; simpl; [reflexivity|].
  destruct (isWhite c) eqn:W.
  - destruct inrun; [apply IH|]. simpl. now rewrite IH.
  - simpl. rewrite W. apply IH.
Qed.

Lemma trimStart_spaced (b : bool) (s : string) :
  singleSpaced b s = true -> singleSpaced true (trimStart s) = true.
Proof.
  revert b; induction s as [|c s IH]; intros b; simpl; [reflexivity|].
  destruct (isWhite c) eqn:W.
  - rewrite !andb_true_iff. intros [_ H]. now apply (IH true).
  - intros H. simpl. now rewrite W.
Qed.

Lemma trimEnd_spaced (b : bool) (s : string) :
  singleSpaced b s = true -> singleSpaced b (trimEnd s) = true.
Proof.
  revert b; induction s as [|c s IH]; intros b; [reflexivity|].
  cbn [singleSpaced trimEnd]. destruct (trimEnd s) as [|d r] eqn:E.
  - destruct (isWhite c) eqn:W; [reflexivity|]. intros _. simpl.
    now rewrite W.
  - cbn [singleSpaced]. destruct (isWhite c) eqn:W.
    + rewrite !andb_true_iff. intros [H1 H2]. split; [exact H1|].
      apply (IH true) in H2. exact H2.
    + intros H. apply (IH false) in H. exact H.
Qed.

Lemma take_spaced (b : bool) (n : nat) (s : string) :
  singleSpaced b s = true -> singleSpaced b (take n s) = true.
Proof.
  revert b s; induction n as [|n IH]; intros b s; [reflexivity|].
  destruct s as [|c s]; [reflexivity|]. cbn [take singleSpaced].
  destruct (isWhite c).
  - rewrite !andb_true_iff. intros [H1 H2]. split; [exact H1|].
    now apply IH.
  - apply IH.
Qed.

(** X21. A sanitized title has at most 100 characters, holds no control
    character and none of the characters that a file name may not hold,
    and its only white space is a single space between two words.  It does
    not begin with a space; it may end with one, where the cut falls. *)
Theorem sanitizeTitle_build_safe (title : string) :
  let name := sanitizeTitle title in
  (String.length name <= 100)%nat
  /\ (String.length name <= String.length title)%nat
  /\ forallChars (fun c => negb (isUnsafe c)) name = true
  /\ singleSpaced true name = true.
Proof.
  intros name. subst name. unfold sanitizeTitle, removeRange, normalizeNFC.
  cbv zeta. split; [apply take_length|]. split; [|split].
  - set (body := collapseWhite _ false).
    assert (L : (String.length body <= String.length title)%nat).
    { subst body. etransitivity; [apply collapseWhite_length|].
      do 7 (etransitivity; [apply removeChars_length|]).
      rewrite replaceChar_length.
      etransitivity; [apply VideoIdFacts.dropTrailingBracket_length|].
      apply VideoIdFacts.dropLeadingBracket_length. }
    pose proof (trim_length body). 
    assert (T : forall n s, (String.length (take n s) <= String.length s)%nat).
    { induction n as [|n IH]; intros [|c r]; simpl; try lia.
      specialize (IH r). lia. }
    specialize (T 100%nat (trim body)). lia.
  - apply take_forall, trim_forall, collapseWhite_keeps; [reflexivity|].
    do 6 apply removeChars_keeps. apply removeChars_forall.
  - apply take_spaced, trimEnd_spaced.
    eapply trimStart_spaced. apply collapseWhite_spaced.
Qed.

(** The cut at 100 characters can leave a space at the end. *)
Example sanitizeTitle_cut :
  sanitizeTitle
    ("0123456789012345678901234567890123456789012345678901234567890123456789"
     ++ "01234567890123456789012345678 and more") =
  "0123456789012345678901234567890123456789012345678901234567890123456789"
  ++ "01234567890123456789012345678 ".
Proof. reflexivity. Qed.

End SanitizeFacts.

(** ** The summarizer of the sources: its key points *)

Module LegacyFacts.
Import JsString JsText Spec JsStringFacts JsTextFacts SelectionFacts.
Import DetailedFacts.

Lemma sublist_refl {A : Type} (l : list A) : sublist l l.
Proof. induction l; constructor; assumption. Qed.

Lemma sublist_filter {A : Type} (f : A -> bool) (l : list A) :
  sublist (filter f l) l.
Proof.
  induction l as [|x l IH]; simpl; [constructor|].
  destruct (f x); now constructor.
Qed.

Lemma sublist_firstn {A : Type} (k : nat) (l : list A) :
  sublist (firstn k l) l.
Proof.
  revert k; induction l as [|x l IH]; intros k.
  - rewrite firstn_nil. constructor.
  - destruct k; simpl; [apply sublist_nil_l | now constructor].
Qed.

Lemma sublist_trans {A : Type} (l1 l2 l3 : list A) :
  sublist l1 l2 -> sublist l2 l3 -> sublist l1 l3.
Proof.
  intros H12 H23. revert l1 H12.
  induction H23 as [|x l2 l3 H IH|x l2 l3 H IH]; intros l1 H12.
  - exact H12.
  - inversion H12; subst; constructor; auto.
  - constructor. auto.
Qed.

(** X22. The key points of the source summarizer are at most five pieces of the
    transcript between periods, trimmed, in the order of the transcript;
    each has more than 20 characters once trimmed and holds a keyword. *)
Theorem legacy_key_points_in_order (transcript : string) :
  exists chosen : list string,
    Legacy.keyPointsOf transcript = map trim chosen
    /\ sublist chosen (split "." transcript)
    /\ (List.length chosen <= 5)%nat
    /\ Forall (fun s => Legacy.hasIndicator s = true /\ 20 < len (trim s))
              chosen.
Proof.
  unfold Legacy.keyPointsOf, Legacy.sentencesOf.
  rewrite slice_prefix by lia.
  set (pieces := split "." transcript).
  exists (firstn (Z.to_nat 5) (filter Legacy.hasIndicator
            (filter (fun s => len (trim s) >? 20) pieces))).
  split; [reflexivity|]. split; [|split].
  - eapply sublist_trans; [apply sublist_firstn|].
    eapply sublist_trans; apply sublist_filter.
  - etransitivity; [apply firstn_le_length|]. simpl. lia.
  - apply Forall_forall. intros s Hs.
    apply (sublist_In _ _ (sublist_firstn _ _)) in Hs.
    apply filter_In in Hs. destruct Hs as [Hs Hi].
    apply filter_In in Hs. destruct Hs as [_ Hl].
    split; [exact Hi|]. now apply Z.gtb_lt in Hl.
Qed.

Lemma splitAcc_piece_length (sep : ascii) (s cur piece : string) :
  In piece (splitAcc sep s cur) ->
  (String.length piece <= String.length cur + String.length s)%nat.
Proof.
  revert cur; induction s as [|c s IH]; intros cur; simpl.
  - intros [<- | []]. lia.
  - destruct (Ascii.eqb c sep).
    + intros [<- | H]; [lia|]. apply IH in H. simpl in H. lia.
    + intros H. apply IH in H. rewrite length_append in H. simpl in H. lia.
Qed.

(** X23. For a transcript of at most 20 characters the source summarizer
    returns a single period. *)
Theorem legacy_short_transcript (transcript videoTitle : string) :
  (String.length transcript <= 20)%nat ->
  Legacy.generateKeyPointsSummary transcript videoTitle = ".".
Proof.
  intros L.
  assert (E : Legacy.sentencesOf transcript = []).
  { unfold Legacy.sentencesOf.
    destruct (filter _ (split "." transcript)) as [|s0 l] eqn:E;
      [reflexivity|].
    assert (Hin : In s0 (filter (fun s => len (trim s) >? 20)
                                (split "." transcript)))
      by (rewrite E; now left).
    apply filter_In in Hin. destruct Hin as [Hp Hl].
    apply Z.gtb_lt in Hl. unfold len in Hl.
    pose proof (trim_length s0). apply splitAcc_piece_length in Hp.
    simpl in Hp. lia. }
  unfold Legacy.generateKeyPointsSummary, Legacy.keyPointsOf.
  rewrite E. reflexivity.
Qed.

Lemma legacy_short_transcript_witness :
  Legacy.generateKeyPointsSummary "Too short to count." "T" = ".".
Proof. apply legacy_short_transcript. vm_compute. lia. Defined.

End LegacyFacts.


(** ** The captions: what is read from a document *)

Module CaptionsFacts.
Import JsString JsText Captions JsStringFacts JsTextFacts.

Lemma span_stop (stop : ascii -> bool) (a : string) (c : ascii)
  (b : string) :
  forallChars (fun x => negb (stop x)) a = true -> stop c = true ->
  span stop (a ++ String c b) = (a, String c b).
Proof.
  intros Ha Hc. induction a as [|x a IH]; simpl.
  - now rewrite Hc.
  - cbn [forallChars] in Ha. apply andb_true_iff in Ha.
    destruct Ha as [Hx Ha]. apply negb_true_iff in Hx.
    now rewrite Hx, (IH Ha).
Qed.

Lemma startsWith_app (p rest : string) : startsWith (p ++ rest) p = true.
Proof. apply startsWith_spec. now exists rest. Qed.

Lemma elementAt_element (e : string * string) (rest : string) :
  plainElement e = true ->
  elementAt (element e ++ rest)
  = Some (snd e, String.length (element e)).
Proof.
  destruct e as [attributes inner]. unfold plainElement. cbn [fst snd].
  rewrite !andb_true_iff. intros [[Ha Hi] _].
  unfold elementAt, element. cbn [fst snd].
  rewrite !append_assoc.
  rewrite (startsWith_app "<text" _).
  change (drop 5 ("<text" ++ attributes ++ ">" ++ inner ++ "</text>" ++ rest))
    with (attributes ++ String ">" (inner ++ String "<" ("/text>" ++ rest))).
  rewrite (span_stop isGt attributes ">" _ Ha eq_refl).
  rewrite (span_stop isLt inner "<" _ Hi eq_refl).
  change (String "<" ("/text>" ++ rest)) with ("</text>" ++ rest).
  rewrite (startsWith_app "</text>" rest).
  do 2 f_equal. rewrite !length_append. simpl. lia.
Qed.

Lemma groups_skip (a rest : string) :
  groups (a ++ rest) (String.length a) = groups rest 0.
Proof.
  induction a as [|c a IH]; simpl; [|exact IH].
  destruct rest; reflexivity.
Qed.

Lemma groups_element (e : string * string) (rest : string) :
  plainElement e = true ->
  groups (element e ++ rest) 0 = snd e :: groups rest 0.
Proof.
  intros H. pose proof (elementAt_element e rest H) as E.
  destruct e as [attributes inner]. unfold element in *. cbn [fst snd] in *.
  cbn [append] in *. cbn [groups]. rewrite E. f_equal.
  cbn [String.length Nat.sub]. apply groups_skip.
Qed.

Lemma groups_elements (l : list (string * string)) (rest : string) :
  forallb plainElement l = true ->
  groups (elements l ++ rest) 0 = (map snd l ++ groups rest 0)%list.
Proof.
  induction l as [|e l IH]; intros H; [reflexivity|].
  cbn [forallb] in H. apply andb_true_iff in H. destruct H as [He Hl].
  cbn [elements map]. rewrite append_assoc, (groups_element e _ He).
  now rewrite (IH Hl).
Qed.

Lemma groups_document (l : list (string * string)) :
  forallb plainElement l = true -> groups (document l) 0 = map snd l.
Proof.
  intros H. unfold document, dq. cbn [append].
  repeat match goal with
         | |- groups (String ?c ?r) 0 = _ =>
             change (groups (String c r) 0) with (groups r 0)
         end.
  rewrite (groups_elements l "</transcript>" H).
  change (groups "</transcript>" 0) with (@nil string).
  apply app_nil_r.
Qed.

Lemma replaceAll_absent (pattern replacement s : string) (c : ascii) :
  startsWith pattern (String c EmptyString) = true ->
  forallChars (fun x => negb (Ascii.eqb x c)) s = true ->
  replaceAll pattern replacement s 0 = s.
Proof.
  intros Hp. induction s as [|x s IH]; intros H; [reflexivity|].
  cbn [forallChars] in H. apply andb_true_iff in H. destruct H as [Hx Hs].
  cbn [replaceAll].
  replace (startsWith (String x s) pattern) with false.
  - now rewrite (IH Hs).
  - symmetry. destruct pattern as [|p pattern]; [discriminate Hp|].
    cbn [startsWith] in *. apply andb_true_iff in Hp. destruct Hp as [Hp _].
    apply Ascii.eqb_eq in Hp. subst p.
    apply negb_true_iff in Hx. rewrite Ascii.eqb_sym in Hx.
    now rewrite Hx.
Qed.

Lemma join_forall (p : ascii -> bool) (sep : string) (l : list string) :
  forallChars p sep = true ->
  forallb (forallChars p) l = true -> forallChars p (join sep l) = true.
Proof.
  intros Hs. induction l as [|x l IH]; intros H; [reflexivity|].
  cbn [forallb] in H. apply andb_true_iff in H. destruct H as [Hx Hl].
  destruct l as [|y l]; [exact Hx|].
  change (join sep (x :: y :: l)) with (x ++ sep ++ join sep (y :: l)).
  rewrite !forallChars_app, Hx, Hs. now rewrite (IH Hl).
Qed.

Lemma decodeEntities_plain (s : string) :
  forallChars (fun c => negb (isAmp c)) s = true -> decodeEntities s = s.
Proof.
  intros H. unfold decodeEntities. cbv zeta.
  rewrite (replaceAll_absent "&amp;" "&" s "&" eq_refl H).
  rewrite (replaceAll_absent "&lt;" "<" s "&" eq_refl H).
  rewrite (replaceAll_absent "&gt;" ">" s "&" eq_refl H).
  rewrite (replaceAll_absent "&quot;" dq s "&" eq_refl H).
  now rewrite (replaceAll_absent "&#39;" "'" s "&" eq_refl H).
Qed.

Lemma plain_texts (l : list (string * string)) :
  forallb plainElement l = true ->
  forallb (forallChars (fun c => negb (isAmp c))) (map snd l) = true.
Proof.
  induction l as [|x r IH]; intros H; [reflexivity|].
  cbn [forallb] in H. apply andb_true_iff in H. destruct H as [Hx Hr].
  cbn [map forallb]. rewrite (IH Hr), andb_true_r.
  unfold plainElement in Hx. now apply andb_true_iff in Hx.
Qed.

(** X24. A caption document whose elements have no closing bracket in their
    attributes and no opening bracket and no entity in their texts is read
    as these texts, joined by one space and trimmed. *)
Theorem parseTranscriptXML_reads_texts (l : list (string * string)) :
  l <> [] -> forallb plainElement l = true ->
  parseTranscriptXML (document l) = trim (join " " (map snd l)).
Proof.
  intros Hne H. unfold parseTranscriptXML.
  replace (String.eqb (document l) "") with false by reflexivity.
  assert (T : trim (document l) <> "").
  { unfold document, dq. cbn [append]. unfold trim.
    rewrite trimStart_cons by reflexivity.
    rewrite trimEnd_cons by reflexivity. discriminate. }
  destruct (String.eqb_spec (trim (document l)) ""); [contradiction|].
  cbn [orb]. rewrite (groups_document l H).
  destruct l as [|e l]; [contradiction|].
  pose proof (plain_texts _ H) as P.
  cbn [map] in *. rewrite decodeEntities_plain; [reflexivity|].
  now apply join_forall.
Qed.

Lemma parseTranscriptXML_reads_texts_witness :
  parseTranscriptXML
    (document [(" start=" ++ dq ++ "0" ++ dq, "Never gonna give you up");
               (" start=" ++ dq ++ "4" ++ dq, "never gonna let you down ")])
  = "Never gonna give you up never gonna let you down".
Proof.
  apply (parseTranscriptXML_reads_texts
           [(" start=" ++ dq ++ "0" ++ dq, "Never gonna give you up");
            (" start=" ++ dq ++ "4" ++ dq, "never gonna let you down ")]).
  - discriminate.
  - reflexivity.
Defined.

(** The entities are decoded one after the other, the ampersand first, so
    that an escaped entity is decoded twice. *)
Example escaped_entity_decoded_twice :
  parseTranscriptXML (document [("", "a &amp;lt; b")]) = "a < b".
Proof. reflexivity. Qed.

Lemma groups_no_bracket (s : string) (skip : nat) :
  forallChars (fun c => negb (isLt c)) s = true -> groups s skip = [].
Proof.
  revert skip; induction s as [|c s IH]; intros skip H; [reflexivity|].
  cbn [forallChars] in H. apply andb_true_iff in H. destruct H as [Hc Hs].
  cbn [groups]. destruct skip; [|now apply IH].
  replace (elementAt (String c s)) with (@None (string * nat)).
  - now apply IH.
  - unfold elementAt. cbn [startsWith]. unfold isLt in Hc.
    apply negb_true_iff in Hc. rewrite Ascii.eqb_sym in Hc. now rewrite Hc.
Qed.

(** X25. A text that holds no opening angle bracket has no element: the
    result is empty. *)
Theorem parseTranscriptXML_without_elements (xmlText : string) :
  forallChars (fun c => negb (isLt c)) xmlText = true ->
  parseTranscriptXML xmlText = "".
Proof.
  intros H. unfold parseTranscriptXML.
  destruct (_ || _); [reflexivity|]. now rewrite (groups_no_bracket _ 0 H).
Qed.

Lemma parseTranscriptXML_without_elements_witness :
  parseTranscriptXML "Video unavailable" = "".
Proof. apply parseTranscriptXML_without_elements. reflexivity. Defined.

End CaptionsFacts.
